(** * localgrembot: the announcement loop of [main.py]

    A shallow embedding of class [Looper] (src/main.py) and the properties of
    its scheduling and rotation logic.

    Modelling conventions.
    - Python [float] values (the interval, the elapsed seconds, the wait) are
      IEEE binary64 values: a finite one is the rational it denotes, every
      operation rounds its exact result to the nearest double, ties to even
      ([round64]), and infinities and NaN are values of their own.  The sign
      of a zero is not kept: nothing in the program depends on it.
    - [datetime.timedelta] keeps a whole number of microseconds and refuses
      more than 999999999 days; [time.sleep] refuses a duration the platform
      cannot represent, a limit the environment supplies.
    - Python [int] values are [Z]; list subscripts follow Python (negative
      subscripts count from the end, anything else out of range raises
      [IndexError]).
    - The outside world of one loop iteration is a [CycleEnv]: the reading of
      the wall clock and what the two HTTP endpoints would answer.  Every
      observable action (log record, sleep, HTTP request together with its
      outcome) is appended to a trace.
    - Methods are computations in a small monad [Py] that reads the
      environment, threads [self], writes the trace and may raise. *)

From Stdlib Require Import ZArith QArith Qround Qabs Qpower List String Bool
  Lia Lqa.
Import ListNotations.

Local Open Scope string_scope.
Local Open Scope list_scope.
Local Open Scope Z_scope.
#[local] Set Warnings "-register-all".

(** ** IEEE binary64 arithmetic *)

Module Float64.

Local Open Scope Q_scope.

Definition pow2 (k : Z) : Q := 2 ^ k.

(** The binade of a positive rational: the [k] with [2^k <= x < 2^(k+1)]. *)
Definition ilog2 (x : Q) : Z :=
  let k := (Z.log2 (Qnum x) - Z.log2 (Zpos (Qden x)))%Z in
  if Qle_bool (pow2 k) x then k else (k - 1)%Z.

(** The exponent of the unit in the last place: 53 significant bits, and
    no exponent below that of the subnormals. *)
Definition ulp_exp (x : Q) : Z := Z.max (ilog2 x - 52) (-1074).

(** The nearest integer, ties to even. *)
Definition rne (z : Q) : Z :=
  let f := Qfloor z in
  match Qcompare (z - inject_Z f) (1 # 2) with
  | Lt => f
  | Gt => (f + 1)%Z
  | Eq => if Z.even f then f else (f + 1)%Z
  end.

Definition round_pos (x : Q) : Q :=
  let e := ulp_exp x in Qred (inject_Z (rne (x / pow2 e)) * pow2 e).

(** The double nearest to [x], ties to even, before any overflow. *)
Definition round64 (x : Q) : Q :=
  match Qcompare x 0 with
  | Eq => 0
  | Gt => round_pos x
  | Lt => - round_pos (- x)
  end.

(** The largest finite double, [(2^53 - 1) * 2^971]. *)
Definition max_double : Q := inject_Z (2 ^ 53 - 1) * pow2 971.

Definition is_double (q : Q) : bool :=
  Qeq_bool (round64 q) q && Qle_bool (Qabs q) max_double.

Inductive pyfloat : Type :=
| Finite (q : Q)
| Inf (negative : bool)
| NaN.

Definition well_formed (f : pyfloat) : bool :=
  match f with
  | Finite q => is_double q
  | _ => true
  end.

(** A [float] handed to the program from outside: a value that is a
    double. *)
Record float : Type := mkFloat {
  fl : pyfloat;
  fl_ok : well_formed fl = true
}.

(** The result of an operation whose exact value is [x]. *)
Definition of_rounded (x : Q) : pyfloat :=
  let r := round64 x in
  if Qle_bool (Qabs r) max_double then Finite r
  else Inf (negb (Qle_bool 0 r)).

(** [a - b] *)
Definition float_sub (a b : pyfloat) : pyfloat :=
  match a, b with
  | NaN, _ => NaN
  | _, NaN => NaN
  | Finite x, Finite y => of_rounded (x - y)
  | Finite _, Inf negative => Inf (negb negative)
  | Inf negative, Finite _ => Inf negative
  | Inf n1, Inf n2 => if Bool.eqb n1 n2 then NaN else Inf n1
  end.

(** Truncation towards zero. *)
Definition qtrunc (z : Q) : Z :=
  if Qle_bool 0 z then Qfloor z else Qceiling z.

(** C's [fmod] on finite operands, [y] not zero: exact, with the sign of
    [x]. *)
Definition fmod (x y : Q) : Q :=
  Qred (x - y * inject_Z (qtrunc (x / y))).

Definition is_negative (q : Q) : bool := negb (Qle_bool 0 q).

(** [y] is a double, but for the range. *)
Definition is_rep (y : Q) : Prop := round64 y == y.

End Float64.
Import Float64.

(** ** A fragment of Python's dynamic semantics *)

Module Python.

(** The exception classes that can reach this program.  [Timeout] stands
    for [requests.exceptions.Timeout] and its subclasses, which an
    [except requests.exceptions.Timeout] clause matches alike. *)
Inductive timeout_class : Type :=
| PlainTimeout
| ConnectTimeout
| ReadTimeout.

Inductive exn : Type :=
| Timeout (c : timeout_class)
| RequestException (what : string)
| JSONDecodeError
| KeyError (key : string)
| TypeError
| IndexError
| ZeroDivisionError
| ValueError
| OverflowError.

(** [isinstance(e, requests.exceptions.Timeout)] *)
Definition is_timeout (e : exn) : bool :=
  match e with
  | Timeout _ => true
  | _ => false
  end.

(** Values produced by [json.loads], which are also the values the two
    request methods return ([JBool] for [True]/[False]).  A [JObj] is the
    parsed [dict], looked up by its first binding of a key. *)
Inductive value : Type :=
| JNull
| JBool (b : bool)
| JNum (q : Q)
| JStr (s : string)
| JArr (items : list value)
| JObj (fields : list (string * value)).

(** Truth value testing, as [not x] and [if x] do it. *)
Definition truthy (v : value) : bool :=
  match v with
  | JNull => false
  | JBool b => b
  | JNum q => negb (Qeq_bool q 0)
  | JStr s => negb (String.eqb s "")
  | JArr items => match items with [] => false | _ :: _ => true end
  | JObj fields => match fields with [] => false | _ :: _ => true end
  end.

Fixpoint assoc {A : Type} (k : string) (kvs : list (string * A)) : option A :=
  match kvs with
  | [] => None
  | (k', v) :: rest => if String.eqb k k' then Some v else assoc k rest
  end.

(** [v[key]] for a [str] key: only a [dict] accepts it. *)
Definition subscript_str (v : value) (key : string) : exn + value :=
  match v with
  | JObj fields =>
      match assoc key fields with
      | Some x => inr x
      | None => inl (KeyError key)
      end
  | _ => inl TypeError
  end.

(** [l[i]] for a list and an [int]. *)
Definition subscript_list {A : Type} (l : list A) (i : Z) : exn + A :=
  let n := Z.of_nat (List.length l) in
  let j := if i <? 0 then i + n else i in
  if (0 <=? j) && (j <? n) then
    match nth_error l (Z.to_nat j) with
    | Some x => inr x
    | None => inl IndexError
    end
  else inl IndexError.

(** [a % b] on [int]. *)
Definition int_mod (a b : Z) : exn + Z :=
  if b =? 0 then inl ZeroDivisionError else inr (a mod b).

(** The mathematical remainder with the sign of the divisor. *)
Definition Qmod (a b : Q) : Q :=
  (a - b * inject_Z (Qfloor (a / b)))%Q.

(** [v % w] on [float], as CPython's [float_rem]: [fmod], then the divisor
    is added when the signs differ, which rounds. *)
Definition float_mod (v w : pyfloat) : exn + pyfloat :=
  match w with
  | Finite y =>
      if Qeq_bool y 0 then inl ZeroDivisionError
      else
        match v with
        | Finite x =>
            let m := fmod x y in
            if Qeq_bool m 0 then inr (Finite 0)
            else if Bool.eqb (is_negative y) (is_negative m)
                 then inr (Finite m)
                 else inr (of_rounded (m + y))
        | _ => inr NaN
        end
  | Inf negative =>
      match v with
      | Finite x =>
          if Qeq_bool x 0 then inr (Finite 0)
          else if Bool.eqb negative (is_negative x) then inr (Finite x)
               else inr (Inf negative)
      | _ => inr NaN
      end
  | NaN => inr NaN
  end.

(** [a / b] on [int]: the quotient rounded once. *)
Definition int_truediv (a b : Z) : exn + pyfloat :=
  if b =? 0 then inl ZeroDivisionError
  else
    match of_rounded (inject_Z a / inject_Z b) with
    | Finite q => inr (Finite q)
    | _ => inl OverflowError
    end.

End Python.
Import Python.

(** ** [datetime] *)

Module Datetime.

Record datetime : Type := mkDatetime {
  year : Z;
  month : Z;
  day : Z;
  hour : Z;
  minute : Z;
  second : Z;
  microsecond : Z
}.

(** A [timedelta] is kept as its total number of microseconds; its days
    must have a magnitude of at most 999999999. *)
Definition check_days (total : Z) : exn + Z :=
  let days := total / 86400000000 in
  if (-999999999 <=? days) && (days <=? 999999999) then inr total
  else inl OverflowError.

(** [datetime.timedelta(days=, minutes=, seconds=, microseconds=)] on
    [int] arguments. *)
Definition timedelta (days minutes seconds microseconds : Z) : exn + Z :=
  check_days ((days * 86400 + minutes * 60 + seconds) * 1000000
              + microseconds).

(** [datetime.timedelta(seconds=w)] on a [float]: the whole seconds are
    taken exactly, the fraction is multiplied by a million in [float]
    arithmetic, and the sum is rounded to a whole microsecond, ties to
    even. *)
Definition timedelta_of_seconds (w : pyfloat) : exn + Z :=
  match w with
  | NaN => inl ValueError
  | Inf _ => inl OverflowError
  | Finite q =>
      let whole := qtrunc q in
      let fraction := (q - inject_Z whole)%Q in
      let micros := round64 (1000000 * fraction) in
      check_days (rne (inject_Z (whole * 1000000) + micros))
  end.

(** [t1 / t2] for two timedeltas: the true division of their
    microseconds. *)
Definition timedelta_truediv (t1 t2 : Z) : exn + pyfloat :=
  int_truediv t1 t2.

(** What [datetime.datetime.now()] can return. *)
Definition valid_clock (t : datetime) : Prop :=
  1 <= month t <= 12 /\ 1 <= day t <= 31 /\ 0 <= hour t <= 23
  /\ 0 <= minute t <= 59 /\ 0 <= second t <= 59
  /\ 0 <= microsecond t <= 999999.

End Datetime.
Import Datetime.

(** ** [requests] *)

Module Requests.

Inductive method : Type := GET | POST.

Record Request : Type := mkRequest {
  req_method : method;
  req_url : string;
  req_data : list (string * string);
  req_params : list (string * string);
  req_headers : list (string * string);
  req_timeout : Z
}.

(** What the program reads of a response: [status_code], [content] and
    [json()], which is [None] when the content is not JSON (the call then
    raises [JSONDecodeError]). *)
Record Response : Type := mkResponse {
  status_code : Z;
  content : string;
  json : option value
}.

Inductive Outcome : Type :=
| Raises (e : exn)
| Responds (r : Response).

End Requests.
Import Requests.

(** ** The object, the environment and the trace *)

Record Looper : Type := mkLooper {
  broadcaster_id : string;
  ignore_offline : bool;
  announcements : list string;
  moderator_id : string;
  interval : float;
  index : Z;
  headers : list (string * string)
}.

Definition set_index (self : Looper) (i : Z) : Looper :=
  mkLooper (broadcaster_id self) (ignore_offline self) (announcements self)
           (moderator_id self) (interval self) i (headers self).

(** What one iteration meets: the wall clock, the answers of the two
    endpoints, and the platform's refusal of a sleep too long for its clock
    (CPython: a duration that does not fit a 64-bit count of
    nanoseconds). *)
Record CycleEnv : Type := mkEnv {
  now : datetime;
  get_reply : Outcome;
  post_reply : Outcome;
  sleep_too_long : Q -> bool
}.

Inductive LogRecord : Type :=
| InfoWaiting (seconds_until_announcement : pyfloat)
| InfoStarting
| InfoOffline
| InfoSending (broadcaster message : string)
| InfoSent
| ErrorTimedOut
| ErrorContent (body : string).

Inductive Event : Type :=
| Log (l : LogRecord)
| Sleep (seconds : Q)
| Http (rq : Request) (reply : Outcome).

(** ** The monad of method bodies *)

Record Out (A : Type) : Type := mkOut {
  trace : list Event;
  state : Looper;
  result : exn + A
}.
Arguments mkOut {A} _ _ _.
Arguments trace {A} _.
Arguments state {A} _.
Arguments result {A} _.

Definition Py (A : Type) : Type := CycleEnv -> Looper -> Out A.

Definition ret {A : Type} (a : A) : Py A :=
  fun _ self => mkOut [] self (inr a).

Definition bind {A B : Type} (m : Py A) (f : A -> Py B) : Py B :=
  fun env self =>
    match m env self with
    | mkOut tr self' (inl e) => mkOut tr self' (inl e)
    | mkOut tr self' (inr a) =>
        match f a env self' with
        | mkOut tr' self'' r => mkOut (tr ++ tr') self'' r
        end
    end.

Notation "x <- m ;; k" := (bind m (fun x => k))
  (at level 61, m at next level, right associativity).
Notation "m ;; k" := (bind m (fun _ => k))
  (at level 61, right associativity).

Definition raise {A : Type} (e : exn) : Py A :=
  fun _ self => mkOut [] self (inl e).

Definition lift {A : Type} (r : exn + A) : Py A :=
  fun _ self => mkOut [] self r.

Definition emit (ev : Event) : Py unit :=
  fun _ self => mkOut [ev] self (inr tt).

Definition get_self : Py Looper :=
  fun _ self => mkOut [] self (inr self).

Definition put_self (self' : Looper) : Py unit :=
  fun _ _ => mkOut [] self' (inr tt).

Definition ask : Py CycleEnv :=
  fun env self => mkOut [] self (inr env).

(** [try: m  except <handled>: h] *)
Definition try_except {A : Type} (m : Py A) (handled : exn -> bool) (h : Py A)
  : Py A :=
  fun env self =>
    match m env self with
    | mkOut tr self' (inl e) =>
        if handled e then
          match h env self' with
          | mkOut tr' self'' r => mkOut (tr ++ tr') self'' r
          end
        else mkOut tr self' (inl e)
    | mkOut tr self' (inr a) => mkOut tr self' (inr a)
    end.

(** ** Library calls with an effect *)

Definition logging_info (l : LogRecord) : Py unit := emit (Log l).
Definition logging_error (l : LogRecord) : Py unit := emit (Log l).

(** [datetime.datetime.now()] *)
Definition datetime_now : Py datetime :=
  env <- ask ;; ret (now env).

(** [time.sleep(secs)]: the duration is first converted to the platform's
    clock, which raises [OverflowError] when it does not fit ([ValueError]
    for NaN), and a negative duration then raises [ValueError]. *)
Definition time_sleep (secs : pyfloat) : Py unit :=
  env <- ask ;;
  match secs with
  | NaN => raise ValueError
  | Inf _ => raise OverflowError
  | Finite q =>
      if sleep_too_long env q then raise OverflowError
      else if is_negative q then raise ValueError
      else emit (Sleep q)
  end.

(** [requests.get] and [requests.post]: the request is recorded with what
    came back, and an exception of the transport is raised in the caller. *)
Definition perform (rq : Request) (reply : Outcome) : Py Response :=
  emit (Http rq reply) ;;
  match reply with
  | Raises e => raise e
  | Responds r => ret r
  end.

Definition requests_get (url : string) (params headers : list (string * string))
  (timeout : Z) : Py Response :=
  env <- ask ;;
  perform (mkRequest GET url [] params headers timeout) (get_reply env).

Definition requests_post (url : string) (data params headers : list (string * string))
  (timeout : Z) : Py Response :=
  env <- ask ;;
  perform (mkRequest POST url data params headers timeout) (post_reply env).

(** [response.json()] *)
Definition response_json (response : Response) : Py value :=
  match json response with
  | Some v => ret v
  | None => raise JSONDecodeError
  end.

(** ** class [Looper] *)

Module LooperImpl.

Definition SECONDS_IN_A_MINUTE : Z := 60.
Definition URL_PREFIX : string := "https://api.twitch.tv/helix/".

Definition __init__
  (announcements : list string) (ignore_offline : bool)
  (broadcaster_id moderator_id : string) (interval : float)
  (client_id token : string) : Looper :=
  mkLooper broadcaster_id ignore_offline announcements moderator_id
           interval 0
           [("Authorization", ("Bearer " ++ token)%string); ("Client-Id", client_id)].

Definition check_status_code (response : Response) (code : Z) : Py bool :=
  let result := status_code response =? code in
  (if negb result then logging_error (ErrorContent (content response))
   else ret tt) ;;
  ret result.

Definition get_announcement : Py string :=
  self <- get_self ;;
  lift (subscript_list (announcements self) (index self)).

Definition get_online : Py value :=
  self <- get_self ;;
  response <- requests_get (URL_PREFIX ++ "streams")%string
                [("user_id", broadcaster_id self)]
                (headers self) SECONDS_IN_A_MINUTE ;;
  ok <- check_status_code response 200 ;;
  if ok then
    body <- response_json response ;;
    lift (subscript_str body "data")
  else ret (JBool false).

Definition post_announce : Py value :=
  self <- get_self ;;
  let params := [("broadcaster_id", broadcaster_id self);
                 ("moderator_id", moderator_id self)] in
  message <- lift (subscript_list (announcements self) (index self)) ;;
  response <- requests_post (URL_PREFIX ++ "chat/announcements")%string
                [("message", message)] params (headers self) 60 ;;
  ok <- check_status_code response 204 ;;
  ret (JBool ok).

Definition try_request (request : Py value) : Py value :=
  try_except request is_timeout
    (logging_error ErrorTimedOut ;; ret (JBool false)).

(** The seconds given to [timedelta] on lines 55-60, divided by one
    second: the day of the month, the minute, the second and the
    microsecond of [now], and not its hour. *)
Definition elapsed (now : datetime) : exn + pyfloat :=
  match timedelta (day now) (minute now) (second now) (microsecond now) with
  | inl e => inl e
  | inr t =>
      match timedelta 0 0 1 0 with
      | inl e => inl e
      | inr one_second => timedelta_truediv t one_second
      end
  end.

Definition send_announcement : Py unit :=
  self <- get_self ;;
  now <- datetime_now ;;
  seconds <- lift (elapsed now) ;;
  r <- lift (float_mod seconds (fl (interval self))) ;;
  let seconds_until_announcement := float_sub (fl (interval self)) r in
  wait <- lift (timedelta_of_seconds seconds_until_announcement) ;;
  logging_info (InfoWaiting seconds_until_announcement) ;;
  time_sleep seconds_until_announcement ;;
  logging_info InfoStarting ;;
  offline <- (if ignore_offline self then
                online <- try_request get_online ;;
                ret (negb (truthy online))
              else ret false) ;;
  if offline : bool then
    logging_info InfoOffline
  else
    message <- get_announcement ;;
    logging_info (InfoSending (broadcaster_id self) message) ;;
    sent <- try_request post_announce ;;
    if truthy sent then
      logging_info InfoSent ;;
      self <- get_self ;;
      i <- lift (int_mod (index self + 1)
                   (Z.of_nat (List.length (announcements self)))) ;;
      put_self (set_index self i)
    else ret tt.

(** [run] never returns; the model runs it on a finite prefix of the
    environments the loop meets, one per iteration, and stops at the
    first iteration that raises. *)
Record RunOut : Type := mkRun {
  cycles : list (list Event);
  final : Looper;
  raised : option exn
}.

Fixpoint run (envs : list CycleEnv) (self : Looper) : RunOut :=
  match envs with
  | [] => mkRun [] self None
  | env :: rest =>
      let o := send_announcement env self in
      match result o with
      | inl e => mkRun [trace o] (state o) (Some e)
      | inr _ =>
          let r := run rest (state o) in
          mkRun (trace o :: cycles r) (final r) (raised r)
      end
  end.

End LooperImpl.
Import LooperImpl.

(** ** Observations on a trace *)

Definition method_eqb (a b : method) : bool :=
  match a, b with
  | GET, GET => true
  | POST, POST => true
  | _, _ => false
  end.

(** The durations handed to [time.sleep]. *)
Definition slept (tr : list Event) : list Q :=
  flat_map (fun ev => match ev with Sleep w => [w] | _ => [] end) tr.

(** The requests of one HTTP method, each with what came back. *)
Definition http_requests (m : method) (tr : list Event)
  : list (Request * Outcome) :=
  flat_map (fun ev =>
              match ev with
              | Http rq reply =>
                  if method_eqb (req_method rq) m then [(rq, reply)] else []
              | _ => []
              end) tr.

Definition status_queries (tr : list Event) := http_requests GET tr.
Definition posts (tr : list Event) := http_requests POST tr.

(** The messages carried by the post requests. *)
Definition posted (tr : list Event) : list (option string) :=
  map (fun p => assoc "message" (req_data (fst p))) (posts tr).

(** A post request answered with the expected status 204. *)
Definition accepted (p : Request * Outcome) : bool :=
  match snd p with
  | Responds r => status_code r =? 204
  | Raises _ => false
  end.

Definition sent_ok (tr : list Event) : bool := existsb accepted (posts tr).

Definition logged (l : LogRecord) (tr : list Event) : Prop := In (Log l) tr.

(** The two requests the class builds. *)
Definition status_request (self : Looper) : Request :=
  mkRequest GET (URL_PREFIX ++ "streams")%string []
            [("user_id", broadcaster_id self)] (headers self)
            SECONDS_IN_A_MINUTE.

Definition announce_request (self : Looper) (message : string) : Request :=
  mkRequest POST (URL_PREFIX ++ "chat/announcements")%string
            [("message", message)]
            [("broadcaster_id", broadcaster_id self);
             ("moderator_id", moderator_id self)]
            (headers self) 60.

(** The number of cycles whose post was accepted. *)
Definition successes (cs : list (list Event)) : nat :=
  List.length (filter sent_ok cs).

(** The status check did not confirm the channel online: the request timed
    out, the status is not 200, or the [data] list of the answer is empty. *)
Inductive not_confirmed_online : Outcome -> Prop :=
| status_timed_out (e : exn) :
    is_timeout e = true -> not_confirmed_online (Raises e)
| status_not_200 (r : Response) :
    status_code r <> 200 -> not_confirmed_online (Responds r)
| status_no_stream (r : Response) (fields : list (string * value)) :
    status_code r = 200 ->
    json r = Some (JObj fields) ->
    assoc "data" fields = Some (JArr []) ->
    not_confirmed_online (Responds r).

(** The body of a response is JSON with a ['data'] key. *)
Definition has_data_key (r : Response) : bool :=
  match json r with
  | Some (JObj fields) =>
      match assoc "data" fields with
      | Some _ => true
      | None => false
      end
  | _ => false
  end.

(** The status each endpoint's answer is checked against (lines 109 and
    129). *)
Definition expected_status (m : method) : Z :=
  match m with
  | GET => 200
  | POST => 204
  end.

(** The methods of the requests of a trace, in the order they were issued. *)
Definition methods_issued (tr : list Event) : list method :=
  flat_map (fun ev =>
              match ev with
              | Http rq _ => [req_method rq]
              | _ => []
              end) tr.

(** The messages of the accepted posts of a run, oldest first. *)
Definition sent_messages (cs : list (list Event)) : list (option string) :=
  flat_map (fun tr => if sent_ok tr then posted tr else []) cs.

(** The same object with [ignore_offline] off. *)
Definition ungated (self : Looper) : Looper :=
  mkLooper (broadcaster_id self) false (announcements self)
           (moderator_id self) (interval self) (index self) (headers self).

(** An outcome of a request that [try_request] lets the loop survive: an
    answer of any status, or a timeout. *)
Definition survivable (reply : Outcome) : Prop :=
  match reply with
  | Raises e => is_timeout e = true
  | Responds _ => True
  end.

(** A status answer whose body can be read: when the status is 200, the
    body is JSON with a ['data'] key. *)
Definition status_body_ok (reply : Outcome) : Prop :=
  match reply with
  | Raises _ => True
  | Responds r => status_code r = 200 -> has_data_key r = true
  end.

(** The invariant of the rotation cursor. *)
Definition valid_index (self : Looper) : Prop :=
  0 <= index self < Z.of_nat (List.length (announcements self)).

(** ** The wait as the specification words it *)

(** [(interval - elapsed mod interval) mod interval] *)
Definition spec_wait (interval elapsed : Q) : Q :=
  Qmod (interval - Qmod elapsed interval) interval.

(** The exact number of seconds in the day of the month, the minute, the
    second and the microsecond of [now]; [elapsed] is the double nearest to
    it. *)
Definition elapsed_exact (now : datetime) : Q :=
  (inject_Z ((day now * 86400 + minute now * 60 + second now) * 1000000
             + microsecond now) / inject_Z 1000000)%Q.

(** Python's [<=] and [<] on floats. *)
Definition float_le (a b : pyfloat) : bool :=
  match a, b with
  | NaN, _ | _, NaN => false
  | Finite x, Finite y => Qle_bool x y
  | Finite _, Inf negative => negb negative
  | Inf negative, Finite _ => negative
  | Inf n1, Inf n2 => n1 || negb n2
  end.

Definition float_lt (a b : pyfloat) : bool :=
  match a, b with
  | NaN, _ | _, NaN => false
  | _, _ => negb (float_le b a)
  end.

(** A whole number of units [2^-1074], as every double is. *)
Definition on_grid (q : Q) : Prop :=
  exists n : Z, (q == inject_Z n * pow2 (-1074))%Q.

(** The value of [seconds_until_announcement] on lines 55-60. *)
Definition wait_of (self : Looper) (now : datetime) : exn + pyfloat :=
  match elapsed now with
  | inl e => inl e
  | inr seconds =>
      match float_mod seconds (fl (interval self)) with
      | inl e => inl e
      | inr r => inr (float_sub (fl (interval self)) r)
      end
  end.

(** Line 62 and [time.sleep] both accept the wait [q]. *)
Definition sleepable (env : CycleEnv) (q : Q) : Prop :=
  (exists wait, timedelta_of_seconds (Finite q) = inr wait)
  /\ sleep_too_long env q = false
  /\ is_negative q = false.

(** The cycle gets past its sleep: the wait is computed without an
    exception, and line 62 and [time.sleep] accept it. *)
Definition wakes (env : CycleEnv) (self : Looper) : Prop :=
  exists w : Q,
    wait_of self (now env) = inr (Finite w) /\ sleepable env w.

(** The same formula in [float] arithmetic. *)
Definition spec_wait_float (interval elapsed : pyfloat) : exn + pyfloat :=
  match float_mod elapsed interval with
  | inl e => inl e
  | inr r => float_mod (float_sub interval r) interval
  end.

(** Seconds since the start of the current hour. *)
Definition elapsed_seconds_in_hour (now : datetime) : Q :=
  (inject_Z (minute now * 60 + second now)
   + inject_Z (microsecond now) / inject_Z 1000000)%Q.

(** ** Sample data *)

Definition clock (d m s us : Z) : datetime := mkDatetime 2024 1 d 13 m s us.

Definition no_content : Outcome := Responds (mkResponse 204 "" None).

Definition server_error : Outcome :=
  Responds (mkResponse 500 "Internal Server Error" None).

Definition live : Outcome :=
  Responds (mkResponse 200 "{data: [{id: 1}]}"
              (Some (JObj [("data", JArr [JObj [("id", JStr "1")]])]))).

Definition not_live : Outcome :=
  Responds (mkResponse 200 "{data: []}" (Some (JObj [("data", JArr [])]))).

(** The doubles 300.0, 7.0, -5.0 and 1e14. *)
Definition seconds_300 : float := mkFloat (Finite (300 # 1)) eq_refl.
Definition seconds_7 : float := mkFloat (Finite (7 # 1)) eq_refl.
Definition seconds_minus_5 : float := mkFloat (Finite (- (5 # 1))) eq_refl.
Definition seconds_1e14 : float :=
  mkFloat (Finite (100000000000000 # 1)) eq_refl.

(** The double -1e22. *)
Definition seconds_minus_1e22 : float :=
  mkFloat (Finite (- (10000000000000000000000 # 1))) eq_refl.

(** A platform whose sleep counts nanoseconds in 64 bits. *)
Definition int64_nanoseconds (secs : Q) : bool :=
  Qle_bool (inject_Z (2 ^ 63)) (Qabs (round64 (secs * inject_Z 1000000000))).

Definition abc (gate : bool) : Looper :=
  __init__ ["A"; "B"; "C"] gate "1234" "5678" seconds_300 "client" "token".

(** A wall clock on an interval boundary: the 1st of the month, 13:05:00. *)
Definition on_boundary : CycleEnv :=
  mkEnv (clock 1 5 0 0) live no_content int64_nanoseconds.

Definition read_timeout : Outcome := Raises (Timeout ReadTimeout).

Definition connection_error : Outcome :=
  Raises (RequestException "ConnectionError").

(** 13:07:30 on the 17th, with the given answers of the two endpoints. *)
Definition mid_interval (get post : Outcome) : CycleEnv :=
  mkEnv (clock 17 7 30 0) get post int64_nanoseconds.

(** 13:07:30.123456 on the 17th. *)
Definition off_grid : CycleEnv :=
  mkEnv (clock 17 7 30 123456) live no_content int64_nanoseconds.

(** ** Rounding to a double *)

Section Rounding.

Local Open Scope Q_scope.

(** *** Powers of two *)

Lemma pow2_pos (k : Z) : 0 < pow2 k.
Proof. apply Qpower_0_lt. reflexivity. Qed.

Lemma pow2_add (a b : Z) : pow2 (a + b) == pow2 a * pow2 b.
Proof. apply Qpower_plus. discriminate. Qed.

Lemma pow2_le (a b : Z) : (a <= b)%Z -> pow2 a <= pow2 b.
Proof. intros H. apply Qpower_le_compat_l; [exact H | discriminate]. Qed.

Lemma pow2_lt (a b : Z) : (a < b)%Z -> pow2 a < pow2 b.
Proof. intros H. apply Qpower_lt_compat_l; [exact H | reflexivity]. Qed.

Lemma pow2_lt_inv (a b : Z) : pow2 a < pow2 b -> (a < b)%Z.
Proof. intros H. apply (Qpower_lt_compat_l_inv 2); [exact H | reflexivity]. Qed.

Lemma pow2_Z (k : Z) : (0 <= k)%Z -> pow2 k == inject_Z (2 ^ k).
Proof. intros H. unfold pow2. rewrite Zpower_Qpower by exact H. reflexivity. Qed.

(** *** The binade of a positive rational *)

Lemma ilog2_spec (x : Q) :
  0 < x -> pow2 (ilog2 x) <= x /\ x < pow2 (ilog2 x + 1).
Proof.
  intros Hx. destruct x as [n d].
  assert (Hn : (0 < n)%Z).
  { unfold Qlt in Hx. cbn in Hx. lia. }
  unfold ilog2. cbn [Qnum Qden].
  set (a := Z.log2 n). set (b := Z.log2 (Z.pos d)).
  destruct (Z.log2_spec n Hn) as [Ha1 Ha2].
  destruct (Z.log2_spec (Z.pos d) (Pos2Z.is_pos d)) as [Hb1 Hb2].
  fold a in Ha1, Ha2. fold b in Hb1, Hb2.
  assert (Ha0 : (0 <= a)%Z) by apply Z.log2_nonneg.
  assert (Hb0 : (0 <= b)%Z) by apply Z.log2_nonneg.
  assert (Hlow : pow2 (a - b - 1) <= n # d).
  { assert (E : pow2 (a - b - 1) * pow2 (b + 1) == pow2 a).
    { rewrite <- pow2_add. replace (a - b - 1 + (b + 1))%Z with a by lia.
      reflexivity. }
    rewrite (pow2_Z (b + 1)), (pow2_Z a) in E by lia.
    pose proof (pow2_pos (a - b - 1)) as Hp.
    set (p := pow2 (a - b - 1)) in *.
    assert (Hb3 : inject_Z (Z.pos d) <= inject_Z (2 ^ (b + 1)))
      by (rewrite <- Zle_Qle; unfold Z.succ in Hb2; lia).
    assert (Ha3 : inject_Z (2 ^ a) <= inject_Z n)
      by (rewrite <- Zle_Qle; lia).
    assert (Hd : 0 < inject_Z (Z.pos d)) by reflexivity.
    assert (Hq : (n # d) * inject_Z (Z.pos d) == inject_Z n).
    { rewrite (Qmake_Qdiv n d). field. discriminate. }
    set (D := inject_Z (Z.pos d)) in *. set (N := inject_Z n) in *.
    set (A := inject_Z (2 ^ a)) in *. set (B := inject_Z (2 ^ (b + 1))) in *.
    set (x := n # d) in *.
    apply Qnot_lt_le. intros Hc.
    assert (H1 : x * D < p * D) by (apply Qmult_lt_r; assumption).
    assert (H2 : p * D <= p * B) by (apply Qmult_le_l; assumption).
    lra. }
  assert (Hhigh : n # d < pow2 (a - b + 1)).
  { assert (E : pow2 (a - b + 1) * pow2 b == pow2 (a + 1)).
    { rewrite <- pow2_add. replace (a - b + 1 + b)%Z with (a + 1)%Z by lia.
      reflexivity. }
    rewrite (pow2_Z b), (pow2_Z (a + 1)) in E by lia.
    pose proof (pow2_pos (a - b + 1)) as Hp.
    set (p := pow2 (a - b + 1)) in *.
    assert (Hb3 : inject_Z (2 ^ b) <= inject_Z (Z.pos d))
      by (rewrite <- Zle_Qle; lia).
    assert (Ha3 : inject_Z n < inject_Z (2 ^ (a + 1)))
      by (rewrite <- Zlt_Qlt; unfold Z.succ in Ha2; lia).
    assert (Hd : 0 < inject_Z (Z.pos d)) by reflexivity.
    assert (Hq : (n # d) * inject_Z (Z.pos d) == inject_Z n).
    { rewrite (Qmake_Qdiv n d). field. discriminate. }
    set (D := inject_Z (Z.pos d)) in *. set (N := inject_Z n) in *.
    set (A := inject_Z (2 ^ (a + 1))) in *. set (B := inject_Z (2 ^ b)) in *.
    set (x := n # d) in *.
    apply Qnot_le_lt. intros Hc.
    assert (H1 : p * D <= x * D) by (apply Qmult_le_r; assumption).
    assert (H2 : p * B <= p * D) by (apply Qmult_le_l; assumption).
    lra. }
  destruct (Qle_bool (pow2 (a - b)) (n # d)) eqn:Hc.
  - apply Qle_bool_iff in Hc. split; [exact Hc | exact Hhigh].
  - split; [exact Hlow|].
    replace (a - b - 1 + 1)%Z with (a - b)%Z by lia.
    apply Qnot_le_lt. intros H. apply Qle_bool_iff in H. congruence.
Qed.

Lemma ilog2_unique (x : Q) (k : Z) :
  pow2 k <= x -> x < pow2 (k + 1) -> ilog2 x = k.
Proof.
  intros H1 H2.
  assert (Hx : 0 < x) by (pose proof (pow2_pos k); lra).
  destruct (ilog2_spec x Hx) as [H3 H4].
  assert (A : (k < ilog2 x + 1)%Z) by (apply pow2_lt_inv; lra).
  assert (B : (ilog2 x < k + 1)%Z) by (apply pow2_lt_inv; lra).
  lia.
Qed.

Lemma ilog2_mono (x y : Q) : 0 < x -> x <= y -> (ilog2 x <= ilog2 y)%Z.
Proof.
  intros Hx Hxy.
  destruct (ilog2_spec x Hx) as [H1 _].
  destruct (ilog2_spec y ltac:(lra)) as [_ H2].
  assert (A : (ilog2 x < ilog2 y + 1)%Z) by (apply pow2_lt_inv; lra).
  lia.
Qed.

(** *** Rounding to an integer, ties to even *)

Lemma rne_le_int (z : Q) (m : Z) : z <= inject_Z m -> (rne z <= m)%Z.
Proof.
  intros H. unfold rne.
  pose proof (Qfloor_le z) as Hf. pose proof (Qlt_floor z) as Hc.
  rewrite inject_Z_plus in Hc. change (inject_Z 1) with 1 in Hc.
  assert (Hfm : (Qfloor z <= m)%Z) by (rewrite Zle_Qle; lra).
  destruct (Z.eq_dec (Qfloor z) m) as [E|E].
  - assert (Hz : z - inject_Z (Qfloor z) == 0) by (rewrite E in *; lra).
    rewrite Hz. cbn. lia.
  - destruct (Qcompare _ _); [destruct (Z.even _)| |]; lia.
Qed.

Lemma rne_ge_int (z : Q) (m : Z) : inject_Z m <= z -> (m <= rne z)%Z.
Proof.
  intros H. unfold rne.
  pose proof (Qlt_floor z) as Hc.
  rewrite inject_Z_plus in Hc. change (inject_Z 1) with 1 in Hc.
  assert (Hfm : (m < Qfloor z + 1)%Z).
  { rewrite Zlt_Qlt, inject_Z_plus. change (inject_Z 1) with 1. lra. }
  destruct (Qcompare _ _); [destruct (Z.even _)| |]; lia.
Qed.

#[global] Instance rne_comp : Proper (Qeq ==> eq) rne.
Proof.
  intros x y H. unfold rne.
  rewrite (Qfloor_comp x y H).
  assert (E : x - inject_Z (Qfloor y) == y - inject_Z (Qfloor y))
    by (rewrite H; reflexivity).
  rewrite E. reflexivity.
Qed.

(** *** Rounding to binary64 *)

Lemma ilog2_comp (x y : Q) : 0 < x -> x == y -> ilog2 x = ilog2 y.
Proof.
  intros Hx H. destruct (ilog2_spec x Hx) as [H1 H2].
  symmetry. apply ilog2_unique; rewrite <- H; assumption.
Qed.

Lemma round_pos_eq (x : Q) :
  round_pos x == inject_Z (rne (x / pow2 (ulp_exp x))) * pow2 (ulp_exp x).
Proof. unfold round_pos. apply Qred_correct. Qed.

Lemma round_pos_comp (x y : Q) : 0 < x -> x == y -> round_pos x == round_pos y.
Proof.
  intros Hx H. rewrite !round_pos_eq. unfold ulp_exp.
  rewrite (ilog2_comp x y Hx H).
  assert (E : x / pow2 (Z.max (ilog2 y - 52) (-1074))
              == y / pow2 (Z.max (ilog2 y - 52) (-1074)))
    by (rewrite H; reflexivity).
  rewrite E. reflexivity.
Qed.

#[global] Instance round64_comp : Proper (Qeq ==> Qeq) round64.
Proof.
  intros x y H. unfold round64. rewrite <- H.
  destruct (Qcompare x 0) eqn:C; [reflexivity| |].
  - apply Qlt_alt in C. apply Qopp_comp. apply round_pos_comp; [lra|].
    rewrite H. reflexivity.
  - apply Qgt_alt in C. apply round_pos_comp; assumption.
Qed.

Lemma ulp_exp_mono (x y : Q) : 0 < x -> x <= y -> (ulp_exp x <= ulp_exp y)%Z.
Proof.
  intros Hx Hxy. unfold ulp_exp.
  pose proof (ilog2_mono x y Hx Hxy). lia.
Qed.

Lemma round_pos_nonneg (x : Q) : 0 < x -> 0 <= round_pos x.
Proof.
  intros Hx. rewrite round_pos_eq.
  pose proof (pow2_pos (ulp_exp x)) as Hp.
  assert (H : (0 <= rne (x / pow2 (ulp_exp x)))%Z).
  { apply rne_ge_int. change (inject_Z 0) with 0.
    apply Qle_shift_div_l; [exact Hp | lra]. }
  rewrite Zle_Qle in H. change (inject_Z 0) with 0 in H.
  apply Qmult_le_0_compat; lra.
Qed.

Lemma round_pos_le (x y : Q) :
  0 < x -> x <= y -> round_pos y == y -> round_pos x <= y.
Proof.
  intros Hx Hxy Hy.
  pose proof (ulp_exp_mono x y Hx Hxy) as He.
  rewrite round_pos_eq in Hy.
  set (ex := ulp_exp x) in *. set (ey := ulp_exp y) in *.
  set (ny := rne (y / pow2 ey)) in *.
  pose proof (pow2_pos ex) as Hpx.
  assert (Hm : y / pow2 ex == inject_Z (ny * 2 ^ (ey - ex))).
  { rewrite inject_Z_mult, <- pow2_Z by lia.
    rewrite <- Hy at 1.
    replace ey with ((ey - ex) + ex)%Z at 1 by lia.
    rewrite pow2_add. field. lra. }
  assert (Hr : (rne (x / pow2 ex) <= ny * 2 ^ (ey - ex))%Z).
  { apply rne_le_int. rewrite <- Hm.
    apply Qmult_le_r; [apply Qinv_lt_0_compat; exact Hpx | exact Hxy]. }
  rewrite round_pos_eq. fold ex.
  rewrite Zle_Qle in Hr. rewrite <- Hm in Hr.
  apply Qle_trans with (y / pow2 ex * pow2 ex).
  - apply Qmult_le_r; assumption.
  - apply Qle_lteq. right. field. lra.
Qed.

Lemma rep_pos_min (y : Q) : 0 < y -> round_pos y == y -> pow2 (-1074) <= y.
Proof.
  intros Hy Hr. rewrite round_pos_eq in Hr.
  set (e := ulp_exp y) in *. set (n := rne (y / pow2 e)) in *.
  pose proof (pow2_pos e) as Hp.
  assert (Hn : (1 <= n)%Z).
  { destruct (Z_lt_le_dec n 1) as [H|H]; [|exact H]. exfalso.
    assert (H0 : inject_Z n <= 0)
      by (change 0 with (inject_Z 0); rewrite <- Zle_Qle; lia).
    assert (inject_Z n * pow2 e <= 0).
    { setoid_replace 0 with (0 * pow2 e) by ring.
      apply Qmult_le_r; assumption. }
    lra. }
  assert (He : (-1074 <= e)%Z) by (unfold e, ulp_exp; lia).
  rewrite Zle_Qle in Hn. change (inject_Z 1) with 1 in Hn.
  apply Qle_trans with (pow2 e); [apply pow2_le; exact He|].
  rewrite <- Hr. setoid_replace (pow2 e) with (1 * pow2 e) at 1 by ring.
  apply Qmult_le_r; assumption.
Qed.

Lemma round_pos_ge (x y : Q) :
  0 < y -> y <= x -> round_pos y == y -> y <= round_pos x.
Proof.
  intros Hy Hyx Hr.
  assert (Hx : 0 < x) by lra.
  pose proof (ilog2_mono y x Hy Hyx) as Hk.
  pose proof (pow2_pos (ulp_exp x)) as Hpx.
  rewrite (round_pos_eq x).
  destruct (Z.eq_dec (ilog2 y) (ilog2 x)) as [E|E].
  - assert (Ee : ulp_exp y = ulp_exp x) by (unfold ulp_exp; rewrite E; reflexivity).
    rewrite round_pos_eq, Ee in Hr.
    set (e := ulp_exp x) in *. set (ny := rne (y / pow2 e)) in *.
    assert (Hm : (ny <= rne (x / pow2 e))%Z).
    { apply rne_ge_int.
      setoid_replace (inject_Z ny) with (y / pow2 e)
        by (rewrite <- Hr; field; lra).
      apply Qmult_le_r; [apply Qinv_lt_0_compat; exact Hpx | exact Hyx]. }
    rewrite Zle_Qle in Hm. rewrite <- Hr.
    apply Qmult_le_r; assumption.
  - set (k := ilog2 x) in *.
    destruct (ilog2_spec y Hy) as [_ Hy2].
    destruct (ilog2_spec x Hx) as [Hx1 _]. fold k in Hx1.
    assert (Hyk : y < pow2 k).
    { apply Qlt_le_trans with (pow2 (ilog2 y + 1)); [exact Hy2|].
      apply pow2_le. lia. }
    destruct (Z_lt_le_dec k (-1074)) as [Hsub|Hnorm].
    + pose proof (rep_pos_min y Hy Hr) as Hmin.
      pose proof (pow2_lt k (-1074) Hsub). lra.
    + set (e := ulp_exp x) in *.
      assert (He : (e <= k)%Z) by (unfold e, ulp_exp; fold k; lia).
      assert (Hm : (2 ^ (k - e) <= rne (x / pow2 e))%Z).
      { apply rne_ge_int. rewrite <- pow2_Z by lia.
        apply Qle_shift_div_l; [exact Hpx|].
        rewrite <- pow2_add. replace (k - e + e)%Z with k by lia.
        exact Hx1. }
      rewrite Zle_Qle, <- pow2_Z in Hm by lia.
      apply Qle_trans with (pow2 k); [lra|].
      replace k with ((k - e) + e)%Z at 1 by lia. rewrite pow2_add.
      apply Qmult_le_r; assumption.
Qed.

Lemma round64_le (x y : Q) : is_rep y -> x <= y -> round64 x <= y.
Proof.
  unfold is_rep. intros Hy Hxy. unfold round64 in *.
  destruct (Qcompare x 0) eqn:Cx.
  - apply Qeq_alt in Cx. lra.
  - apply Qlt_alt in Cx.
    pose proof (round_pos_nonneg (- x) ltac:(lra)) as Hn.
    destruct (Qcompare y 0) eqn:Cy.
    + apply Qeq_alt in Cy. lra.
    + apply Qlt_alt in Cy.
      assert (Hy' : round_pos (- y) == - y) by lra.
      assert (H1 : 0 < - y) by lra.
      assert (H2 : - y <= - x) by lra.
      pose proof (round_pos_ge (- x) (- y) H1 H2 Hy'). lra.
    + apply Qgt_alt in Cy. lra.
  - apply Qgt_alt in Cx.
    destruct (Qcompare y 0) eqn:Cy.
    + apply Qeq_alt in Cy. lra.
    + apply Qlt_alt in Cy. lra.
    + apply round_pos_le; assumption.
Qed.

Lemma round64_opp (x : Q) : round64 (- x) == - round64 x.
Proof.
  unfold round64.
  destruct (Qcompare x 0) eqn:Cx.
  - apply Qeq_alt in Cx.
    assert (E : Qcompare (- x) 0 = Eq) by (apply -> Qeq_alt; lra).
    rewrite E. reflexivity.
  - apply Qlt_alt in Cx.
    assert (E : Qcompare (- x) 0 = Gt) by (apply -> Qgt_alt; lra).
    rewrite E. ring.
  - apply Qgt_alt in Cx.
    assert (E : Qcompare (- x) 0 = Lt) by (apply -> Qlt_alt; lra).
    rewrite E. apply Qopp_comp. apply round_pos_comp; [lra | ring].
Qed.

Lemma is_rep_opp (y : Q) : is_rep y -> is_rep (- y).
Proof. unfold is_rep. intros H. rewrite round64_opp, H. reflexivity. Qed.

Lemma round64_ge (x y : Q) : is_rep y -> y <= x -> y <= round64 x.
Proof.
  intros Hy Hyx.
  pose proof (round64_le (- x) (- y) (is_rep_opp y Hy) ltac:(lra)) as H.
  rewrite round64_opp in H. lra.
Qed.

Lemma is_rep_0 : is_rep 0.
Proof. reflexivity. Qed.

(** Every double is a whole number of units [2^-1074]. *)
Lemma round64_grid (x : Q) : exists n : Z, round64 x == inject_Z n * pow2 (-1074).
Proof.
  assert (Hpos : forall z, exists n : Z, round_pos z == inject_Z n * pow2 (-1074)).
  { intros z.
    set (e := ulp_exp z).
    assert (He : (-1074 <= e)%Z) by (unfold e, ulp_exp; lia).
    exists (rne (z / pow2 e) * 2 ^ (e + 1074))%Z.
    rewrite round_pos_eq. fold e.
    rewrite inject_Z_mult, <- pow2_Z by lia.
    replace e with ((e + 1074) + -1074)%Z at 2 by lia.
    rewrite pow2_add. ring. }
  unfold round64. destruct (Qcompare x 0).
  - exists 0%Z. ring.
  - destruct (Hpos (- x)) as [n Hn]. exists (- n)%Z.
    rewrite Hn, inject_Z_opp. ring.
  - apply Hpos.
Qed.

End Rounding.

(** ** Arithmetic of the remainder *)

Section Remainder.

Local Open Scope Q_scope.

Lemma Qmod_bounds (a b : Q) : 0 < b -> 0 <= Qmod a b /\ Qmod a b < b.
Proof.
  intros Hb. unfold Qmod.
  assert (Ha : a == b * (a / b)) by (field; lra).
  pose proof (Qfloor_le (a / b)) as Hlo.
  pose proof (Qlt_floor (a / b)) as Hhi.
  rewrite inject_Z_plus in Hhi. change (inject_Z 1) with 1 in Hhi.
  set (q := a / b) in *. set (f := inject_Z (Qfloor q)) in *.
  split; nra.
Qed.

#[global] Instance Qmod_comp : Proper (Qeq ==> Qeq ==> Qeq) Qmod.
Proof.
  intros a a' Ha b b' Hb. unfold Qmod.
  assert (E : Qfloor (a / b) = Qfloor (a' / b'))
    by (apply Qfloor_comp; rewrite Ha, Hb; reflexivity).
  rewrite E, Ha, Hb. reflexivity.
Qed.

Lemma Qmod_multiple (b : Q) (k : Z) : ~ b == 0 -> Qmod (b * inject_Z k) b == 0.
Proof.
  intros Hb. unfold Qmod.
  assert (E : Qfloor (b * inject_Z k / b) = k).
  { rewrite <- (Qfloor_Z k) at 2. apply Qfloor_comp. field. exact Hb. }
  rewrite E. ring.
Qed.

Lemma Qmod_zero_iff (x b : Q) :
  ~ b == 0 -> (Qmod x b == 0 <-> exists k : Z, x == b * inject_Z k).
Proof.
  intros Hb. split.
  - intros H. exists (Qfloor (x / b)). unfold Qmod in H. lra.
  - intros [k Hk]. rewrite Hk. apply Qmod_multiple, Hb.
Qed.

Lemma Qmod_aligned (a b : Q) : ~ b == 0 -> Qmod (a + (b - Qmod a b)) b == 0.
Proof.
  intros Hb. apply Qmod_zero_iff; [exact Hb|].
  exists (Qfloor (a / b) + 1)%Z. unfold Qmod.
  rewrite inject_Z_plus. change (inject_Z 1) with 1. ring.
Qed.

Lemma Qmod_small (x b : Q) : 0 <= x -> x < b -> Qmod x b == x.
Proof.
  intros H0 Hb. unfold Qmod.
  assert (Hpos : 0 < b) by lra.
  assert (Hlo : 0 <= x / b) by (apply Qle_shift_div_l; lra).
  assert (Hhi : x / b < 1) by (apply Qlt_shift_div_r; lra).
  pose proof (Qfloor_le (x / b)) as Hf.
  pose proof (Qlt_floor (x / b)) as Hc.
  assert (E : Qfloor (x / b) = 0%Z).
  { assert (H1 : inject_Z (Qfloor (x / b)) < inject_Z 1)
      by (change (inject_Z 1) with 1; lra).
    assert (H2 : inject_Z (-1) < inject_Z (Qfloor (x / b))).
    { rewrite inject_Z_plus in Hc. change (inject_Z 1) with 1 in Hc.
      change (inject_Z (-1)) with (-1). lra. }
    rewrite <- Zlt_Qlt in H1, H2. lia. }
  rewrite E. change (inject_Z 0) with 0. ring.
Qed.

Lemma Qmod_self (b : Q) : ~ b == 0 -> Qmod b b == 0.
Proof.
  intros Hb. apply Qmod_zero_iff; [exact Hb|].
  exists 1%Z. change (inject_Z 1) with 1. ring.
Qed.

End Remainder.



(** ** The remainder and the wait in [float] arithmetic *)

Section FloatWait.

Local Open Scope Q_scope.

Lemma qtrunc_nonneg (z : Q) :
  0 <= z ->
  inject_Z (qtrunc z) <= z /\ z < inject_Z (qtrunc z) + 1
  /\ 0 <= inject_Z (qtrunc z).
Proof.
  intros Hz. unfold qtrunc.
  pose proof (Qfloor_resp_le 0 z Hz) as H0.
  apply Qle_bool_iff in Hz. rewrite Hz.
  pose proof (Qfloor_le z) as Hf. pose proof (Qlt_floor z) as Hc.
  rewrite inject_Z_plus in Hc. change (inject_Z 1) with 1 in Hc.
  split; [assumption|]. split; [assumption|].
  change 0 with (inject_Z 0). rewrite <- Zle_Qle. exact H0.
Qed.

Lemma qtrunc_neg (z : Q) :
  z < 0 -> z <= inject_Z (qtrunc z) /\ inject_Z (qtrunc z) - 1 < z.
Proof.
  intros Hz. unfold qtrunc.
  destruct (Qle_bool 0 z) eqn:E; [apply Qle_bool_iff in E; lra|].
  pose proof (Qle_ceiling z) as Hc. pose proof (Qceiling_lt z) as Hl.
  assert (E1 : inject_Z (Qceiling z - 1) == inject_Z (Qceiling z) - 1).
  { unfold Z.sub. rewrite inject_Z_plus. reflexivity. }
  rewrite E1 in Hl. split; assumption.
Qed.

Lemma fmod_eq (x y : Q) : fmod x y == x - y * inject_Z (qtrunc (x / y)).
Proof. unfold fmod. apply Qred_correct. Qed.

Lemma fmod_floor (x y : Q) : 0 <= x -> 0 < y -> fmod x y == Qmod x y.
Proof.
  intros Hx Hy. rewrite fmod_eq. unfold Qmod, qtrunc.
  assert (Hz : 0 <= x / y) by (apply Qle_shift_div_l; lra).
  apply Qle_bool_iff in Hz. rewrite Hz. reflexivity.
Qed.

(** [fmod] has the sign of its first operand and is smaller than the
    second in magnitude. *)
Lemma fmod_bounds (x y : Q) :
  ~ y == 0 ->
  Qabs (fmod x y) < Qabs y
  /\ (0 <= x -> 0 <= fmod x y)
  /\ (x <= 0 -> fmod x y <= 0).
Proof.
  intros Hy. rewrite fmod_eq.
  assert (Hx : x == y * (x / y)) by (field; exact Hy).
  set (z := x / y) in *.
  destruct (Qlt_le_dec z 0) as [Hz|Hz].
  - destruct (qtrunc_neg z Hz) as [H1 H2].
    set (t := inject_Z (qtrunc z)) in *.
    destruct (Qlt_le_dec y 0) as [Hn|Hp].
    + assert (Hm1 : 0 <= x - y * t) by nra.
      assert (Hm2 : x - y * t < - y) by nra.
      split; [|split].
      * rewrite (Qabs_pos _ Hm1), (Qabs_neg y) by lra. exact Hm2.
      * intros _. exact Hm1.
      * intros Hx0. nra.
    + assert (Hp' : 0 < y) by (destruct (Qeq_dec y 0); [contradiction | lra]).
      assert (Hm1 : x - y * t <= 0) by nra.
      assert (Hm2 : - y < x - y * t) by nra.
      split; [|split].
      * rewrite (Qabs_neg _ Hm1), (Qabs_pos y) by lra. lra.
      * intros Hx0. nra.
      * intros _. exact Hm1.
  - destruct (qtrunc_nonneg z Hz) as (H1 & H2 & H3).
    set (t := inject_Z (qtrunc z)) in *.
    destruct (Qlt_le_dec y 0) as [Hn|Hp].
    + assert (Hm1 : x - y * t <= 0) by nra.
      assert (Hm2 : y < x - y * t) by nra.
      split; [|split].
      * rewrite (Qabs_neg _ Hm1), (Qabs_neg y) by lra. lra.
      * intros Hx0. nra.
      * intros _. exact Hm1.
    + assert (Hp' : 0 < y) by (destruct (Qeq_dec y 0); [contradiction | lra]).
      assert (Hm1 : 0 <= x - y * t) by nra.
      assert (Hm2 : x - y * t < y) by nra.
      split; [|split].
      * rewrite (Qabs_pos _ Hm1), (Qabs_pos y) by lra. exact Hm2.
      * intros _. exact Hm1.
      * intros Hx0. nra.
Qed.

Lemma is_double_spec (q : Q) :
  is_double q = true -> is_rep q /\ Qabs q <= max_double.
Proof.
  unfold is_double. intros H. apply andb_true_iff in H. destruct H as [H1 H2].
  split; [apply Qeq_bool_eq, H1 | apply Qle_bool_iff, H2].
Qed.

Lemma is_negative_true (q : Q) : is_negative q = true <-> q < 0.
Proof.
  unfold is_negative. destruct (Qle_bool 0 q) eqn:E; cbn.
  - apply Qle_bool_iff in E. split; [discriminate | lra].
  - split; [|reflexivity]. intros _.
    apply Qnot_le_lt. intros H. apply Qle_bool_iff in H. congruence.
Qed.

Lemma is_negative_false (q : Q) : is_negative q = false <-> 0 <= q.
Proof.
  unfold is_negative. destruct (Qle_bool 0 q) eqn:E; cbn.
  - apply Qle_bool_iff in E. split; [intros _; exact E | reflexivity].
  - split; [discriminate|]. intros H. apply Qle_bool_iff in H. congruence.
Qed.

(** A rounded result between two doubles is finite and stays between
    them. *)
Lemma of_rounded_between (lo hi x : Q) :
  is_rep lo -> is_rep hi -> lo <= x -> x <= hi ->
  Qabs lo <= max_double -> Qabs hi <= max_double ->
  of_rounded x = Finite (round64 x)
  /\ lo <= round64 x /\ round64 x <= hi.
Proof.
  intros Hlo Hhi H1 H2 Mlo Mhi.
  pose proof (round64_ge x lo Hlo H1) as Ha.
  pose proof (round64_le x hi Hhi H2) as Hb.
  split; [|split; assumption].
  unfold of_rounded.
  assert (Hm : Qabs (round64 x) <= max_double).
  { apply Qabs_Qle_condition. apply Qabs_Qle_condition in Mlo, Mhi.
    split; lra. }
  apply Qle_bool_iff in Hm. rewrite Hm. reflexivity.
Qed.

Lemma max_double_pos : 0 < max_double.
Proof. reflexivity. Qed.

(** With a positive interval the wait lies between 0 and the interval,
    whatever the first operand of the remainder. *)
Lemma wait_bounds_pos (v : pyfloat) (i : Q) (r : pyfloat) (q : Q) :
  is_double i = true -> 0 < i ->
  float_mod v (Finite i) = inr r ->
  float_sub (Finite i) r = Finite q ->
  0 <= q /\ q <= i.
Proof.
  intros Hd Hi Hr Hq.
  destruct (is_double_spec i Hd) as [Hrep Hmax].
  assert (M0 : Qabs 0 <= max_double) by (cbn; apply Qlt_le_weak, max_double_pos).
  unfold float_mod in Hr.
  destruct (Qeq_bool i 0) eqn:Ez; [discriminate|].
  apply Qeq_bool_neq in Ez.
  destruct v as [x| |]; try (injection Hr as <-; discriminate Hq).
  destruct (fmod_bounds x i Ez) as (Hb & _ & _).
  rewrite (Qabs_pos i) in Hb by lra.
  apply Qabs_Qlt_condition in Hb.
  destruct (Qeq_bool (fmod x i) 0) eqn:Em.
  - injection Hr as <-. cbn [float_sub] in Hq.
    destruct (of_rounded_between 0 i (i - 0) is_rep_0 Hrep
                ltac:(lra) ltac:(lra) M0 Hmax) as (E & H1 & H2).
    rewrite E in Hq. injection Hq as <-. split; assumption.
  - apply Qeq_bool_neq in Em.
    destruct (Bool.eqb (is_negative i) (is_negative (fmod x i))) eqn:Es.
    + injection Hr as <-. cbn [float_sub] in Hq.
      apply Bool.eqb_prop in Es.
      assert (Hin : is_negative i = false) by (apply is_negative_false; lra).
      rewrite Hin in Es. symmetry in Es. apply is_negative_false in Es.
      destruct (of_rounded_between 0 i (i - fmod x i) is_rep_0 Hrep
                  ltac:(lra) ltac:(lra) M0 Hmax) as (E & H1 & H2).
      rewrite E in Hq. injection Hq as <-. split; assumption.
    + assert (Hneg : fmod x i < 0).
      { apply is_negative_true.
        assert (Hin : is_negative i = false) by (apply is_negative_false; lra).
        rewrite Hin in Es. destruct (is_negative (fmod x i)); [reflexivity|].
        discriminate Es. }
      destruct (of_rounded_between 0 i (fmod x i + i) is_rep_0 Hrep
                  ltac:(lra) ltac:(lra) M0 Hmax) as (E & H1 & H2).
      rewrite E in Hr. injection Hr as <-. cbn [float_sub] in Hq.
      destruct (of_rounded_between 0 i (i - round64 (fmod x i + i))
                  is_rep_0 Hrep ltac:(lra) ltac:(lra) M0 Hmax)
        as (E' & H1' & H2').
      rewrite E' in Hq. injection Hq as <-. split; assumption.
Qed.

(** With a negative interval the wait lies between the interval and 0. *)
Lemma wait_bounds_neg (v : pyfloat) (i : Q) (r : pyfloat) (q : Q) :
  is_double i = true -> i < 0 ->
  float_mod v (Finite i) = inr r ->
  float_sub (Finite i) r = Finite q ->
  i <= q /\ q <= 0.
Proof.
  intros Hd Hi Hr Hq.
  destruct (is_double_spec i Hd) as [Hrep Hmax].
  assert (M0 : Qabs 0 <= max_double) by (cbn; apply Qlt_le_weak, max_double_pos).
  unfold float_mod in Hr.
  destruct (Qeq_bool i 0) eqn:Ez; [discriminate|].
  apply Qeq_bool_neq in Ez.
  destruct v as [x| |]; try (injection Hr as <-; discriminate Hq).
  destruct (fmod_bounds x i Ez) as (Hb & _ & _).
  rewrite (Qabs_neg i) in Hb by lra.
  apply Qabs_Qlt_condition in Hb.
  destruct (Qeq_bool (fmod x i) 0) eqn:Em.
  - injection Hr as <-. cbn [float_sub] in Hq.
    destruct (of_rounded_between i 0 (i - 0) Hrep is_rep_0
                ltac:(lra) ltac:(lra) Hmax M0) as (E & H1 & H2).
    rewrite E in Hq. injection Hq as <-. split; assumption.
  - apply Qeq_bool_neq in Em.
    assert (Hin : is_negative i = true) by (apply is_negative_true; lra).
    destruct (Bool.eqb (is_negative i) (is_negative (fmod x i))) eqn:Es.
    + injection Hr as <-. cbn [float_sub] in Hq.
      apply Bool.eqb_prop in Es.
      rewrite Hin in Es. symmetry in Es. apply is_negative_true in Es.
      destruct (of_rounded_between i 0 (i - fmod x i) Hrep is_rep_0
                  ltac:(lra) ltac:(lra) Hmax M0) as (E & H1 & H2).
      rewrite E in Hq. injection Hq as <-. split; assumption.
    + assert (Hpos : 0 <= fmod x i).
      { apply is_negative_false.
        rewrite Hin in Es. destruct (is_negative (fmod x i)); [|reflexivity].
        discriminate Es. }
      destruct (of_rounded_between i 0 (fmod x i + i) Hrep is_rep_0
                  ltac:(lra) ltac:(lra) Hmax M0) as (E & H1 & H2).
      rewrite E in Hr. injection Hr as <-. cbn [float_sub] in Hq.
      destruct (of_rounded_between i 0 (i - round64 (fmod x i + i))
                  Hrep is_rep_0 ltac:(lra) ltac:(lra) Hmax M0)
        as (E' & H1' & H2').
      rewrite E' in Hq. injection Hq as <-. split; assumption.
Qed.

End FloatWait.

(** ** The wait at a wall-clock time *)

Section WaitFacts.

Local Open Scope Q_scope.

Lemma Qfloor_unique (x : Q) (n : Z) :
  inject_Z n <= x -> x < inject_Z n + 1 -> Qfloor x = n.
Proof.
  intros Hlo Hhi.
  pose proof (Qfloor_le x) as Hf.
  pose proof (Qlt_floor x) as Hc.
  rewrite inject_Z_plus in Hc. change (inject_Z 1) with 1 in Hc.
  assert (H1 : inject_Z n < inject_Z (Qfloor x + 1)).
  { rewrite inject_Z_plus. change (inject_Z 1) with 1. lra. }
  assert (H2 : inject_Z (Qfloor x) < inject_Z (n + 1)).
  { rewrite inject_Z_plus. change (inject_Z 1) with 1. lra. }
  rewrite <- Zlt_Qlt in H1, H2. lia.
Qed.

Lemma Qmod_add_multiple (a b : Q) (k : Z) :
  ~ b == 0 -> Qmod (a + b * inject_Z k) b == Qmod a b.
Proof.
  intros Hb. unfold Qmod.
  assert (E : Qfloor ((a + b * inject_Z k) / b) = (Qfloor (a / b) + k)%Z).
  { apply Qfloor_unique.
    - rewrite inject_Z_plus. pose proof (Qfloor_le (a / b)) as H.
      assert (E : (a + b * inject_Z k) / b == a / b + inject_Z k)
        by (field; exact Hb).
      rewrite E. lra.
    - rewrite inject_Z_plus. pose proof (Qlt_floor (a / b)) as H.
      rewrite inject_Z_plus in H. change (inject_Z 1) with 1 in H.
      assert (E : (a + b * inject_Z k) / b == a / b + inject_Z k)
        by (field; exact Hb).
      rewrite E. lra. }
  rewrite E, inject_Z_plus. ring.
Qed.

(** [i - el mod i] is the shortest positive time from [el] to a multiple
    of [i]. *)
Lemma Qmod_least (el i t : Q) :
  0 < i -> 0 < t -> Qmod (el + t) i == 0 -> i - Qmod el i <= t.
Proof.
  intros Hpos Ht Hal.
  assert (Hnz : ~ i == 0) by lra.
  apply Qmod_zero_iff in Hal; [|exact Hnz]. destruct Hal as [k Hk].
  destruct (Qmod_bounds el i Hpos) as [Hlo Hhi].
  unfold Qmod in *.
  set (f := Qfloor (el / i)) in *.
  assert (Hkf : (f + 1 <= k)%Z).
  { assert (H : inject_Z f < inject_Z k).
    { apply Qmult_lt_l with (z := i); [exact Hpos|]. lra. }
    rewrite <- Zlt_Qlt in H. lia. }
  rewrite Zle_Qle, inject_Z_plus in Hkf. change (inject_Z 1) with 1 in Hkf.
  nra.
Qed.

Lemma timedelta_one_second : timedelta 0 0 1 0 = inr 1000000%Z.
Proof. reflexivity. Qed.

(** At a wall-clock time lines 55-58 raise nothing, and [elapsed] is the
    double nearest to the exact count of seconds. *)
Lemma elapsed_valid (t : datetime) :
  valid_clock t ->
  exists el : Q,
    elapsed t = inr (Finite el)
    /\ el == round64 (elapsed_exact t)
    /\ 86400 <= el.
Proof.
  intros (_ & Hd & _ & Hm & Hs & Hu).
  unfold elapsed, elapsed_exact. rewrite timedelta_one_second.
  unfold timedelta, check_days.
  set (total := ((day t * 86400 + minute t * 60 + second t) * 1000000
                 + microsecond t)%Z).
  assert (Hlo : (86400000000 <= total)%Z) by (unfold total; lia).
  assert (Hhi : (total <= 2764800000000)%Z) by (unfold total; lia).
  assert (Hdays : (1 <= total / 86400000000 <= 32)%Z).
  { split.
    - apply Z.div_le_lower_bound; lia.
    - apply Z.div_le_upper_bound; lia. }
  destruct ((-999999999 <=? total / 86400000000)%Z
            && (total / 86400000000 <=? 999999999)%Z) eqn:Hc.
  2:{ apply andb_false_iff in Hc. destruct Hc as [Hc|Hc];
      [apply Z.leb_gt in Hc | apply Z.leb_gt in Hc]; lia. }
  unfold timedelta_truediv, int_truediv.
  change (1000000 =? 0)%Z with false. cbv iota.
  assert (Hx : 86400 <= inject_Z total / inject_Z 1000000
               /\ inject_Z total / inject_Z 1000000 <= 2764800).
  { assert (L : inject_Z 86400000000 <= inject_Z total)
      by (rewrite <- Zle_Qle; exact Hlo).
    assert (U : inject_Z total <= inject_Z 2764800000000)
      by (rewrite <- Zle_Qle; exact Hhi).
    assert (E : inject_Z total / inject_Z 1000000
                == inject_Z total * (1 # 1000000)) by (field; discriminate).
    change (inject_Z 86400000000) with (86400000000 # 1) in L.
    change (inject_Z 2764800000000) with (2764800000000 # 1) in U.
    rewrite E. split; lra. }
  destruct Hx as [Hx1 Hx2].
  assert (Hr1 : is_rep 86400) by (unfold is_rep; vm_compute; reflexivity).
  assert (Hr2 : is_rep 2764800) by (unfold is_rep; vm_compute; reflexivity).
  assert (Hb1 : Qabs 86400 <= max_double)
    by (apply Qle_bool_imp_le; vm_compute; reflexivity).
  assert (Hb2 : Qabs 2764800 <= max_double)
    by (apply Qle_bool_imp_le; vm_compute; reflexivity).
  destruct (of_rounded_between 86400 2764800
              (inject_Z total / inject_Z 1000000) Hr1 Hr2 Hx1 Hx2 Hb1 Hb2)
    as (E & H1 & H2).
  rewrite E. eexists. split; [reflexivity|]. split; [reflexivity|exact H1].
Qed.

(** On a nonnegative left operand and a positive right one, [%] is the
    exact remainder. *)
Lemma float_mod_nonneg (el i : Q) :
  0 <= el -> 0 < i ->
  exists r : Q,
    float_mod (Finite el) (Finite i) = inr (Finite r) /\ r == Qmod el i.
Proof.
  intros Hel Hi. unfold float_mod.
  destruct (Qeq_bool i 0) eqn:Hz; [apply Qeq_bool_eq in Hz; lra|].
  pose proof (fmod_floor el i Hel Hi) as Hf.
  destruct (Qmod_bounds el i Hi) as [Hlo Hhi].
  destruct (Qeq_bool (fmod el i) 0) eqn:Hm.
  - apply Qeq_bool_eq in Hm. eexists. split; [reflexivity|].
    rewrite <- Hf, Hm. reflexivity.
  - assert (Hni : is_negative i = false) by (apply is_negative_false; lra).
    assert (Hnm : is_negative (fmod el i) = false)
      by (apply is_negative_false; lra).
    rewrite Hni, Hnm. cbn [Bool.eqb].
    eexists. split; [reflexivity|exact Hf].
Qed.

Lemma is_rep_on_grid (q : Q) : is_rep q -> on_grid q.
Proof.
  intros H. destruct (round64_grid q) as [n Hn].
  exists n. rewrite <- Hn. symmetry. exact H.
Qed.

Lemma Qmod_on_grid (a b : Q) : on_grid a -> on_grid b -> on_grid (Qmod a b).
Proof.
  intros [n Hn] [m Hm]. exists (n - m * Qfloor (a / b))%Z.
  unfold Qmod. unfold Zminus.
  rewrite inject_Z_plus, inject_Z_opp, inject_Z_mult.
  rewrite Hn at 1. rewrite Hm at 1. ring.
Qed.

Lemma on_grid_pos (q : Q) : on_grid q -> 0 < q -> pow2 (-1074) <= q.
Proof.
  intros [n Hn] Hq.
  pose proof (pow2_pos (-1074)) as Hu.
  assert (H1 : (1 <= n)%Z).
  { destruct (Z_lt_le_dec n 1) as [Hlt|]; [|assumption].
    assert (H0 : inject_Z n <= 0).
    { change 0 with (inject_Z 0). rewrite <- Zle_Qle. lia. }
    nra. }
  rewrite Zle_Qle in H1. change (inject_Z 1) with 1 in H1. nra.
Qed.

Lemma is_rep_min : is_rep (pow2 (-1074)).
Proof. unfold is_rep. vm_compute. reflexivity. Qed.

(** Rounding cannot take a positive difference of doubles to zero. *)
Lemma round64_pos_grid (x : Q) : on_grid x -> 0 < x -> 0 < round64 x.
Proof.
  intros Hg Hx.
  pose proof (round64_ge x (pow2 (-1074)) is_rep_min (on_grid_pos x Hg Hx)).
  pose proof (pow2_pos (-1074)). lra.
Qed.

(** The wait at a wall-clock time, for a positive finite interval. *)
Lemma wait_value (t : datetime) (self : Looper) (i : Q) :
  valid_clock t ->
  fl (interval self) = Finite i ->
  0 < i ->
  exists el x w : Q,
    elapsed t = inr (Finite el)
    /\ el == round64 (elapsed_exact t)
    /\ x == i - Qmod el i
    /\ wait_of self t = inr (Finite w)
    /\ w == round64 x
    /\ 0 < w /\ w <= i.
Proof.
  intros Hv Hi Hpos.
  destruct (elapsed_valid t Hv) as (el & Hel & Hr & Hge).
  pose proof (fl_ok (interval self)) as Hok. rewrite Hi in Hok.
  cbn [well_formed] in Hok.
  destruct (is_double_spec i Hok) as [Hrep Hmax].
  destruct (float_mod_nonneg el i) as (r & Hm & Hrq); [lra|exact Hpos|].
  destruct (Qmod_bounds el i Hpos) as [Hlo Hhi].
  assert (Hb0 : Qabs 0 <= max_double)
    by (apply Qle_bool_imp_le; vm_compute; reflexivity).
  assert (Hd1 : 0 <= i - r) by lra.
  assert (Hd2 : i - r <= i) by lra.
  destruct (of_rounded_between 0 i (i - r) is_rep_0 Hrep Hd1 Hd2 Hb0 Hmax)
    as (E & H1 & H2).
  exists el, (i - Qmod el i), (round64 (i - r)).
  split; [exact Hel|]. split; [exact Hr|]. split; [reflexivity|].
  split.
  { unfold wait_of. rewrite Hel, Hi, Hm. cbn [float_sub]. rewrite E.
    reflexivity. }
  split; [rewrite Hrq; reflexivity|].
  split; [|exact H2].
  apply round64_pos_grid; [|lra].
  assert (Hgel : on_grid el).
  { destruct (round64_grid (elapsed_exact t)) as [n Hn].
    exists n. rewrite Hr. exact Hn. }
  destruct (Qmod_on_grid el i Hgel (is_rep_on_grid i Hrep)) as [m Hm'].
  destruct (is_rep_on_grid i Hrep) as [k Hk].
  exists (k - m)%Z. unfold Zminus. rewrite inject_Z_plus, inject_Z_opp.
  rewrite Hrq, Hm'. rewrite Hk at 1. ring.
Qed.

(** The specification's formula, in float arithmetic, on a wait between 0
    and the interval: the wait itself below the interval, 0 at the
    interval. *)
Lemma spec_wait_float_of_wait (i w : Q) :
  0 < i -> 0 <= w -> w <= i ->
  exists s : Q,
    float_mod (Finite w) (Finite i) = inr (Finite s)
    /\ (w < i -> s == w)
    /\ (w == i -> s == 0).
Proof.
  intros Hi Hw Hwi.
  destruct (float_mod_nonneg w i Hw Hi) as (s & Hs & Hq).
  exists s. split; [exact Hs|]. split.
  - intros Hlt. rewrite Hq. apply Qmod_small; assumption.
  - intros He. rewrite Hq, He. apply Qmod_self. lra.
Qed.

End WaitFacts.

(** ** Symbolic execution of one cycle *)

Lemma subscript_list_inr {A : Type} (l : list A) (i : Z) (x : A) :
  subscript_list l i = inr x ->
  (Z.of_nat (List.length l) =? 0) = false.
Proof.
  unfold subscript_list. intros H.
  destruct (Z.of_nat (List.length l) =? 0) eqn:E; [|reflexivity].
  apply Z.eqb_eq in E. rewrite E in H.
  destruct (i <? 0) eqn:Hi;
    destruct ((0 <=? _) && (_ <? 0)) eqn:Hr; try discriminate; lia.
Qed.

Lemma subscript_list_valid {A : Type} (l : list A) (i : Z) :
  0 <= i < Z.of_nat (List.length l) ->
  exists x, subscript_list l i = inr x /\ nth_error l (Z.to_nat i) = Some x.
Proof.
  intros H. unfold subscript_list.
  destruct (i <? 0) eqn:Hi; [lia|].
  destruct ((0 <=? i) && (i <? Z.of_nat (List.length l))) eqn:Hr;
    [|apply andb_false_iff in Hr; destruct Hr; lia].
  destruct (nth_error l (Z.to_nat i)) as [x|] eqn:Hn.
  - exists x. split; reflexivity.
  - apply nth_error_None in Hn. lia.
Qed.

Ltac py_red_in E :=
  cbv beta iota zeta delta
    [send_announcement bind ret raise lift emit get_self put_self ask
     try_except logging_info logging_error datetime_now perform requests_get
     requests_post response_json check_status_code get_announcement
     get_online post_announce try_request time_sleep int_mod
     negb is_timeout subscript_str
     now get_reply post_reply sleep_too_long broadcaster_id ignore_offline
     announcements moderator_id interval index headers] in E;
  cbn [app truthy] in E.

Ltac case_innermost x :=
  lazymatch x with
  | context [match ?y with _ => _ end] => case_innermost y
  | _ => destruct x eqn:?
  end.

(** Rewrites in [E] with the equations among the hypotheses. *)
Ltac py_known_in E :=
  repeat match goal with
  | H : ?x = ?y |- _ =>
      tryif is_var x then fail else idtac;
      lazymatch x with
      | true => fail
      | false => fail
      | _ => idtac
      end;
      match type of E with
      | context [x] => rewrite H in E; py_red_in E
      end
  end.

Ltac py_cases_in E :=
  py_known_in E;
  repeat match type of E with
  | context [match ?x with _ => _ end] =>
      case_innermost x; py_red_in E; py_known_in E
  end.

Ltac observe :=
  cbn [trace state result slept http_requests status_queries posts posted
       accepted sent_ok methods_issued flat_map map existsb app method_eqb
       req_method req_data fst snd orb set_index index announcements
       ignore_offline interval assoc String.eqb Ascii.eqb Bool.eqb andb
       List.length].

(** Runs the call of [send_announcement] in the goal along every path: one
    goal per path, with the outcome in closed form and the tests taken on
    the path among the hypotheses. *)
Ltac py_run :=
  cbv zeta;
  let o := fresh "o" in
  let E := fresh "E" in
  match goal with
  | |- context [send_announcement ?e ?s] =>
      remember (send_announcement e s) as o eqn:E
  end;
  py_red_in E;
  py_cases_in E;
  subst o;
  try match goal with
  | H : subscript_list _ _ = inr _ |- _ =>
      pose proof (subscript_list_inr _ _ _ H)
  end;
  try congruence;
  observe;
  repeat match goal with
  | H : ?x = _ |- context [?x] => rewrite H
  end;
  observe.

Ltac py_exec env self :=
  cbv zeta;
  destruct env as [?clk ?greply ?preply ?toolong];
  destruct self as [?bid ?gate ?anns ?mid ?ival ?idx ?hdrs];
  unfold ungated;
  cbn [now get_reply post_reply sleep_too_long broadcaster_id ignore_offline
       announcements moderator_id interval index headers] in *;
  subst;
  py_run.

(** The state after a cycle: the cursor moves exactly when the cycle's post
    was answered 204, and nothing else of [self] ever changes. *)
Lemma cycle_state (env : CycleEnv) (self : Looper) :
  let o := send_announcement env self in
  state o =
    if sent_ok (trace o)
    then set_index self
           ((index self + 1) mod Z.of_nat (List.length (announcements self)))
    else self.
Proof. py_exec env self; reflexivity. Qed.

(** A cycle posts at most once, and what it posts is
    [announcements[index]]. *)
Lemma cycle_posted (env : CycleEnv) (self : Looper) :
  let o := send_announcement env self in
  posted (trace o) = []
  \/ exists m,
       subscript_list (announcements self) (index self) = inr m
       /\ posted (trace o) = [Some m].
Proof.
  py_exec env self;
    solve [ left; reflexivity
          | right; eexists; split; reflexivity ].
Qed.

(** A cycle whose post was accepted ends normally. *)
Lemma cycle_sent_result (env : CycleEnv) (self : Looper) :
  let o := send_announcement env self in
  sent_ok (trace o) = true -> result o = inr tt.
Proof. py_exec env self; intros; solve [reflexivity | discriminate]. Qed.

(** A cycle sleeps at most once, for the wait of lines 55-60, and it does
    sleep exactly when that wait is computed without an exception and is
    accepted by line 62 and by [time.sleep]. *)
Lemma cycle_slept (env : CycleEnv) (self : Looper) :
  let o := send_announcement env self in
  (slept (trace o) = []
   \/ exists q, slept (trace o) = [q]
                /\ wait_of self (now env) = inr (Finite q)
                /\ sleepable env q)
  /\ (forall q, wait_of self (now env) = inr (Finite q) ->
                sleepable env q -> slept (trace o) = [q]).
Proof.
  unfold wait_of, sleepable.
  py_exec env self; split;
    try solve [left; reflexivity];
    try solve [right; eexists; split; [reflexivity|]; split; [reflexivity|];
               split; [eexists; eassumption | split; assumption]];
    intros ?w ?Hq (?Htd & ?Hl & ?Hn);
    try discriminate;
    try (destruct Htd as [? Htd]); try congruence;
    reflexivity.
Qed.

(** A cycle gets past its sleep exactly when it sleeps. *)
Lemma wakes_slept (env : CycleEnv) (self : Looper) :
  wakes env self <->
  exists w : Q, slept (trace (send_announcement env self)) = [w].
Proof.
  destruct (cycle_slept env self) as [Hs Hc]. cbv zeta in Hs, Hc.
  split.
  - intros (w & Hw & Hsl). exists w. apply Hc; assumption.
  - intros [w Hw]. destruct Hs as [Hs|(q & _ & Hq & Hsl)].
    + rewrite Hs in Hw. discriminate.
    + exists q. split; assumption.
Qed.

(** Whether a cycle gets past its sleep does not depend on the cursor. *)
Lemma wakes_set_index (env : CycleEnv) (self : Looper) (i : Z) :
  wakes env (set_index self i) <-> wakes env self.
Proof. reflexivity. Qed.

(** Turns a hypothesis [wakes env self] into the sleep of the goal's
    cycle, ahead of [py_exec]. *)
Ltac awake H :=
  apply wakes_slept in H;
  let w := fresh "w" in
  destruct H as [w H]; revert w H.

(** ** The wait (claims C1, C2 and C9) *)

Section Wait.

Local Open Scope Q_scope.

Lemma elapsed_exact_split (t : datetime) :
  elapsed_exact t
  == elapsed_seconds_in_hour t + inject_Z (day t) * inject_Z 86400.
Proof.
  unfold elapsed_exact, elapsed_seconds_in_hour.
  rewrite !inject_Z_plus, !inject_Z_mult, !inject_Z_plus, !inject_Z_mult.
  field.
Qed.

(** With an infinite interval the wait is never a finite number. *)
Lemma infinite_interval_wait (v : pyfloat) (n : bool) (r : pyfloat) (q : Q) :
  float_mod v (Inf n) = inr r -> float_sub (Inf n) r = Finite q -> False.
Proof.
  unfold float_mod. intros Hm Hs.
  destruct v as [x| |].
  - destruct (Qeq_bool x 0); [injection Hm as <-; discriminate|].
    destruct (Bool.eqb n (is_negative x));
      injection Hm as <-; cbn [float_sub] in Hs; try discriminate.
    rewrite Bool.eqb_reflx in Hs. discriminate.
  - injection Hm as <-. discriminate.
  - injection Hm as <-. discriminate.
Qed.

(** C1, counterexample.  On an interval boundary (13:05:00 on the 1st,
    interval 300 s) the loop sleeps a whole interval, where
    [(interval - elapsed mod interval) mod interval] is 0, in exact and in
    float arithmetic alike. *)
Lemma C1_boundary_sleeps_whole_interval :
  exists w el : Q,
    slept (trace (send_announcement on_boundary (abc false))) = [w]
    /\ elapsed (now on_boundary) = inr (Finite el)
    /\ w == 300
    /\ spec_wait 300 el == 0
    /\ spec_wait_float (fl (interval (abc false))) (Finite el)
       = inr (Finite 0)
    /\ ~ w == spec_wait 300 el.
Proof.
  exists 300, 86700.
  split; [vm_compute; reflexivity|].
  split; [vm_compute; reflexivity|].
  split; [reflexivity|].
  split; [vm_compute; reflexivity|].
  split; [vm_compute; reflexivity|].
  intros H. vm_compute in H. discriminate.
Qed.

(** C1, amended.  In every call of [send_announcement] the duration handed
    to the sleep is the double [interval - (elapsed % interval)], computed
    in float arithmetic with no second remainder, where [elapsed] is the
    double nearest to the number of seconds in the day of the month, the
    minute, the second and the microsecond of the wall clock (its hour left
    out).  The call sleeps at most once, and it does sleep exactly when
    that value is computed without an exception and line 62 and
    [time.sleep] accept it.  For a positive interval the slept duration is
    the value of the specification's formula when it is below the interval,
    and a whole interval where the formula gives 0. *)
Theorem C1_wait_duration (env : CycleEnv) (self : Looper) :
  let o := send_announcement env self in
  let I := fl (interval self) in
  (forall w : Q, In w (slept (trace o)) ->
     slept (trace o) = [w]
     /\ sleepable env w
     /\ exists el r : pyfloat,
          elapsed (now env) = inr el
          /\ float_mod el I = inr r
          /\ float_sub I r = Finite w)
  /\ (forall w : Q,
        wait_of self (now env) = inr (Finite w) -> sleepable env w ->
        slept (trace o) = [w])
  /\ (valid_clock (now env) ->
      exists el : Q,
        elapsed (now env) = inr (Finite el)
        /\ el == round64 (elapsed_exact (now env)))
  /\ (forall i w : Q,
        I = Finite i -> 0 < i -> In w (slept (trace o)) ->
        exists (el : pyfloat) (s : Q),
          elapsed (now env) = inr el
          /\ spec_wait_float I el = inr (Finite s)
          /\ (w < i -> s == w)
          /\ (w == i -> s == 0 /\ ~ s == w)).
Proof.
  intros o I.
  destruct (cycle_slept env self) as [Hs Hc]. fold o in Hs, Hc.
  assert (Hin : forall w : Q, In w (slept (trace o)) ->
            slept (trace o) = [w]
            /\ sleepable env w
            /\ exists el r : pyfloat,
                 elapsed (now env) = inr el
                 /\ float_mod el I = inr r
                 /\ float_sub I r = Finite w).
  { intros w Hw.
    destruct Hs as [Hs|(q & Hs & Hq & Hsl)]; rewrite Hs in Hw;
      cbn [In] in Hw; [contradiction|].
    destruct Hw as [<-|[]].
    split; [exact Hs|]. split; [exact Hsl|].
    unfold wait_of in Hq. fold I in Hq.
    destruct (elapsed (now env)) as [?|el]; [discriminate|].
    destruct (float_mod el I) as [?|r] eqn:Hm; [discriminate|].
    exists el, r. split; [reflexivity|]. split; [exact Hm|].
    congruence. }
  split; [exact Hin|]. split; [exact Hc|]. split.
  - intros Hv. destruct (elapsed_valid _ Hv) as (el & He & Hr & _).
    exists el. split; assumption.
  - intros i w Hi Hpos Hw.
    destruct (Hin w Hw) as (_ & _ & el & r & He & Hm & Hsub).
    pose proof (fl_ok (interval self)) as Hok. fold I in Hok.
    rewrite Hi in Hok, Hm, Hsub. cbn [well_formed] in Hok.
    destruct (wait_bounds_pos el i r w Hok Hpos Hm Hsub) as [Hw0 Hwi].
    destruct (spec_wait_float_of_wait i w Hpos Hw0 Hwi) as (s & Hsm & H1 & H2).
    exists el, s. split; [exact He|]. split.
    { unfold spec_wait_float. rewrite Hi, Hm, Hsub. exact Hsm. }
    split; [exact H1|].
    intros E. split; [exact (H2 E)|]. rewrite (H2 E), E. lra.
Qed.

(** At 13:07:30.123456 on the 17th with an interval of 300 s the sleep is
    the double 321857427459/2147483648 (149.87654399964958...), which is
    also what the specification's formula gives in float arithmetic. *)
Lemma C1_wait_duration_witness :
  let o := send_announcement off_grid (abc false) in
  slept (trace o) = [321857427459 # 2147483648]
  /\ exists (el : pyfloat) (s : Q),
       elapsed (now off_grid) = inr el
       /\ spec_wait_float (fl (interval (abc false))) el = inr (Finite s)
       /\ s == 321857427459 # 2147483648.
Proof.
  cbv zeta.
  destruct (C1_wait_duration off_grid (abc false)) as (H1 & _ & _ & H4).
  assert (Hin : In (321857427459 # 2147483648)
                   (slept (trace (send_announcement off_grid (abc false)))))
    by (vm_compute; left; reflexivity).
  destruct (H1 _ Hin) as (Hs & _).
  split; [exact Hs|].
  destruct (H4 300 (321857427459 # 2147483648) eq_refl eq_refl Hin)
    as (el & s & He & Hsp & Hlt & _).
  exists el, s. split; [exact He|]. split; [exact Hsp|].
  apply Hlt. reflexivity.
Defined.

(** C2, counterexample.  On the same boundary the wait is the interval
    itself, so [W < I] fails. *)
Lemma C2_boundary_wait_not_below_interval :
  exists w i : Q,
    slept (trace (send_announcement on_boundary (abc false))) = [w]
    /\ fl (interval (abc false)) = Finite i
    /\ ~ ((0 <= w /\ w < i)
          /\ Qmod (elapsed_seconds_in_hour (now on_boundary) + w) i == 0).
Proof.
  exists 300, 300.
  split; [vm_compute; reflexivity|]. split; [reflexivity|].
  intros [[_ H] _]. vm_compute in H. discriminate.
Qed.

(** The day of the month is part of [elapsed]: with an interval that does
    not divide a day the wake-up is not aligned to the start of the hour.
    At 13:00:00 on the 1st and an interval of 7 s the wait is 1 s. *)
Lemma day_component_shifts_alignment :
  let env := mkEnv (clock 1 0 0 0) live no_content int64_nanoseconds in
  let self := __init__ ["A"] false "1234" "5678" seconds_7 "client" "token" in
  exists w : Q,
    slept (trace (send_announcement env self)) = [w]
    /\ w == 1
    /\ ~ Qmod (elapsed_seconds_in_hour (now env) + w) 7 == 0.
Proof.
  exists 1. split; [vm_compute; reflexivity|]. split; [reflexivity|].
  intros H. vm_compute in H. discriminate.
Qed.

(** C2, amended.  For every finite interval [I > 0] and every wall-clock
    time, lines 55-60 raise nothing and the wait [W] they compute satisfies
    [0 < W <= I], with [W = I] when [elapsed] is a multiple of [I].  [W] is
    the double nearest to [x = I - elapsed mod I], and it is [x], not
    always [W], that ends on a boundary: [(elapsed + x) mod I == 0], and no
    shorter positive time does.  Here [elapsed] is the double nearest to
    the seconds in the day of the month, minute, second and microsecond.
    When that count is itself a double and [I] divides the seconds of the
    day-of-month part, the same holds of the seconds elapsed since the
    start of the hour.  The cycle sleeps for [W] or, when line 62 or
    [time.sleep] refuse [W], not at all. *)
Theorem C2_wait_bounds_and_alignment
  (env : CycleEnv) (self : Looper) (i : Q) :
  valid_clock (now env) ->
  fl (interval self) = Finite i ->
  0 < i ->
  exists el x w : Q,
    elapsed (now env) = inr (Finite el)
    /\ el == round64 (elapsed_exact (now env))
    /\ wait_of self (now env) = inr (Finite w)
    /\ (forall d : Q,
          In d (slept (trace (send_announcement env self))) -> d = w)
    /\ (sleepable env w ->
        slept (trace (send_announcement env self)) = [w])
    /\ 0 < w /\ w <= i
    /\ (Qmod el i == 0 -> w == i)
    /\ w == round64 x
    /\ x == i - Qmod el i
    /\ 0 < x /\ x <= i
    /\ Qmod (el + x) i == 0
    /\ (forall t : Q, 0 < t -> Qmod (el + t) i == 0 -> x <= t)
    /\ (is_rep (elapsed_exact (now env)) ->
        Qmod (inject_Z (day (now env)) * inject_Z 86400) i == 0 ->
        Qmod (elapsed_seconds_in_hour (now env) + x) i == 0).
Proof.
  intros Hv Hi Hpos.
  destruct (wait_value (now env) self i Hv Hi Hpos)
    as (el & x & w & He & Hr & Hx & Hw & Hwx & Hw0 & Hwi).
  exists el, x, w.
  assert (Hnz : ~ i == 0) by lra.
  destruct (Qmod_bounds el i Hpos) as [Hlo Hhi].
  destruct (cycle_slept env self) as [Hs Hc]. cbv zeta in Hs, Hc.
  pose proof (fl_ok (interval self)) as Hok. rewrite Hi in Hok.
  cbn [well_formed] in Hok.
  destruct (is_double_spec i Hok) as [Hrep _].
  split; [exact He|]. split; [exact Hr|]. split; [exact Hw|].
  split.
  { intros d Hd. destruct Hs as [Hs|(q & Hs & Hq & _)]; rewrite Hs in Hd;
      cbn [In] in Hd; [contradiction|].
    destruct Hd as [<-|[]]. congruence. }
  split; [apply Hc, Hw|].
  split; [exact Hw0|]. split; [exact Hwi|].
  split.
  { intros Hz. rewrite Hwx.
    assert (E : x == i) by (rewrite Hx, Hz; ring).
    rewrite E. exact Hrep. }
  split; [exact Hwx|]. split; [exact Hx|].
  split; [lra|]. split; [lra|].
  assert (Hal : Qmod (el + x) i == 0).
  { rewrite Hx. apply Qmod_aligned, Hnz. }
  split; [exact Hal|].
  split.
  { intros t Ht Hat. rewrite Hx. apply Qmod_least; assumption. }
  intros Hex Hday.
  apply Qmod_zero_iff in Hal; [|exact Hnz]. destruct Hal as [k Hk].
  apply Qmod_zero_iff in Hday; [|exact Hnz]. destruct Hday as [d Hd].
  apply Qmod_zero_iff; [exact Hnz|]. exists (k - d)%Z.
  pose proof (elapsed_exact_split (now env)) as Hsp.
  unfold is_rep in Hex. rewrite Hex in Hr.
  unfold Zminus. rewrite inject_Z_plus, inject_Z_opp. lra.
Qed.

(** At 13:07:30.5 on the 17th and an interval of 300 s the cycle sleeps
    149.5 s. *)
Lemma C2_wait_bounds_and_alignment_witness :
  let env := mkEnv (clock 17 7 30 500000) live no_content int64_nanoseconds in
  exists el x w : Q,
    elapsed (now env) = inr (Finite el)
    /\ slept (trace (send_announcement env (abc false))) = [w]
    /\ 0 < w /\ w <= 300
    /\ w == round64 x
    /\ Qmod (el + x) 300 == 0
    /\ Qmod (elapsed_seconds_in_hour (now env) + x) 300 == 0.
Proof.
  cbv zeta.
  assert (Hv : valid_clock (clock 17 7 30 500000))
    by (unfold valid_clock; cbn; lia).
  destruct (C2_wait_bounds_and_alignment
              (mkEnv (clock 17 7 30 500000) live no_content
                 int64_nanoseconds)
              (abc false) 300 Hv eq_refl eq_refl)
    as (el & x & w & He & _ & Hw & _ & Hs & Hw0 & Hwi & _ & Hwx & _ & _ & _
        & Hal & _ & Hh).
  exists el, x, w.
  split; [exact He|].
  split.
  { apply Hs. vm_compute in Hw. injection Hw as <-.
    split; [eexists; vm_compute; reflexivity|].
    split; vm_compute; reflexivity. }
  split; [exact Hw0|]. split; [exact Hwi|]. split; [exact Hwx|].
  split; [exact Hal|].
  apply Hh; vm_compute; reflexivity.
Defined.

(** C9.  For every interval [I > 0] and every wall-clock time, a cycle
    sleeps at most once, and the duration it sleeps is at least 0 and at
    most [I].  At a wall-clock time and with a finite interval the wait is
    computed without an exception, and is slept unless line 62 or
    [time.sleep] refuse it. *)
Theorem C9_sleep_at_most_interval (env : CycleEnv) (self : Looper) :
  float_lt (Finite 0) (fl (interval self)) = true ->
  let o := send_announcement env self in
  (forall w : Q, In w (slept (trace o)) ->
     0 <= w /\ float_le (Finite w) (fl (interval self)) = true)
  /\ (slept (trace o) = [] \/ exists w : Q, slept (trace o) = [w])
  /\ (valid_clock (now env) ->
      forall i : Q, fl (interval self) = Finite i ->
      exists w : Q,
        wait_of self (now env) = inr (Finite w)
        /\ (sleepable env w -> slept (trace o) = [w])).
Proof.
  intros Hpos o.
  destruct (cycle_slept env self) as [Hs Hc]. fold o in Hs, Hc.
  split; [|split].
  - intros w Hw.
    destruct Hs as [Hs|(q & Hs & Hq & _)]; rewrite Hs in Hw;
      cbn [In] in Hw; [contradiction|].
    destruct Hw as [<-|[]].
    unfold wait_of in Hq.
    destruct (elapsed (now env)) as [?|el]; [discriminate|].
    destruct (float_mod el (fl (interval self))) as [?|r] eqn:Hm;
      [discriminate|].
    injection Hq as Hq.
    pose proof (fl_ok (interval self)) as Hok.
    destruct (fl (interval self)) as [i|n|] eqn:Hi.
    + cbn [float_lt float_le] in Hpos. cbn [well_formed] in Hok.
      assert (Hi0 : 0 < i).
      { destruct (Qle_bool i 0) eqn:Hle; [discriminate|].
        destruct (Qlt_le_dec 0 i) as [|Hle']; [assumption|].
        apply Qle_bool_iff in Hle'. congruence. }
      destruct (wait_bounds_pos el i r q Hok Hi0 Hm Hq) as [H0 H1].
      split; [exact H0|]. cbn [float_le]. apply Qle_bool_iff. exact H1.
    + exfalso. exact (infinite_interval_wait el n r q Hm Hq).
    + discriminate.
  - destruct Hs as [Hs|(q & Hs & _)]; [left; exact Hs|right].
    exists q. exact Hs.
  - intros Hv i Hi.
    assert (Hi0 : 0 < i).
    { rewrite Hi in Hpos. cbn [float_lt float_le] in Hpos.
      destruct (Qle_bool i 0) eqn:Hle; [discriminate|].
      destruct (Qlt_le_dec 0 i) as [|Hle']; [assumption|].
      apply Qle_bool_iff in Hle'. congruence. }
    destruct (wait_value (now env) self i Hv Hi Hi0)
      as (el & x & w & _ & _ & _ & Hw & _).
    exists w. split; [exact Hw|]. apply Hc, Hw.
Qed.

(** On the boundary the sleep is the whole interval, and no more. *)
Lemma C9_sleep_at_most_interval_witness :
  let o := send_announcement on_boundary (abc false) in
  slept (trace o) = [300]
  /\ (forall w : Q, In w (slept (trace o)) ->
        0 <= w /\ float_le (Finite w) (fl (interval (abc false))) = true).
Proof.
  cbv zeta. split; [vm_compute; reflexivity|].
  apply (C9_sleep_at_most_interval on_boundary (abc false)). reflexivity.
Defined.

End Wait.

(** ** The rotation cursor (claims C3, C4 and C5) *)

(** Without the gate the cycle never queries the status endpoint. *)
Lemma cycle_no_status_query (env : CycleEnv) (self : Looper) :
  ignore_offline self = false ->
  status_queries (trace (send_announcement env self)) = [].
Proof. intros H. py_exec env self; reflexivity. Qed.

(** A cycle posts at most once: the request of [post_announce] for
    [announcements[index]], answered as the endpoint answers. *)
Lemma cycle_posts (env : CycleEnv) (self : Looper) :
  let o := send_announcement env self in
  posts (trace o) = []
  \/ exists a : string,
       subscript_list (announcements self) (index self) = inr a
       /\ posts (trace o) = [(announce_request self a, post_reply env)].
Proof.
  unfold announce_request.
  py_exec env self;
    solve [ left; reflexivity
          | right; eexists; split; reflexivity ].
Qed.

(** A cycle whose post was answered, with any status, or timed out ends
    normally. *)
Lemma cycle_post_result (env : CycleEnv) (self : Looper) :
  let o := send_announcement env self in
  posts (trace o) <> [] -> survivable (post_reply env) -> result o = inr tt.
Proof.
  unfold survivable.
  py_exec env self; intros Hp Hs;
    try reflexivity; try (elim Hp; reflexivity); try discriminate.
Qed.

(** Without the gate, a cycle that gets past its sleep and has a message to
    send issues exactly one post, carrying that message, whatever the
    answer. *)
Lemma cycle_posts_ungated (env : CycleEnv) (self : Looper) (m : string) :
  ignore_offline self = false ->
  wakes env self ->
  subscript_list (announcements self) (index self) = inr m ->
  posts (trace (send_announcement env self))
  = [(announce_request self m, post_reply env)].
Proof.
  intros Hg Hw Hm. awake Hw. revert Hm. unfold announce_request.
  py_exec env self; intros Hm w Hs;
    first [reflexivity | discriminate | congruence].
Qed.

Lemma cycle_valid_index (env : CycleEnv) (self : Looper) :
  valid_index self -> valid_index (state (send_announcement env self)).
Proof.
  intros Hv. pose proof (cycle_state env self) as Hs. cbv zeta in Hs.
  rewrite Hs. destruct (sent_ok _); [|exact Hv].
  unfold valid_index in *. cbn [set_index index announcements].
  apply Z.mod_pos_bound. lia.
Qed.

Lemma cycle_announcements (env : CycleEnv) (self : Looper) :
  announcements (state (send_announcement env self)) = announcements self.
Proof.
  pose proof (cycle_state env self) as Hs. cbv zeta in Hs.
  rewrite Hs. destruct (sent_ok _); reflexivity.
Qed.

Lemma run_cons (env : CycleEnv) (rest : list CycleEnv) (self : Looper) :
  run (env :: rest) self =
    let o := send_announcement env self in
    match result o with
    | inl e => mkRun [trace o] (state o) (Some e)
    | inr _ =>
        let r := run rest (state o) in
        mkRun (trace o :: cycles r) (final r) (raised r)
    end.
Proof. reflexivity. Qed.

Lemma run_valid_index (envs : list CycleEnv) :
  forall self, valid_index self -> valid_index (final (run envs self)).
Proof.
  induction envs as [|env rest IH]; intros self Hv; [exact Hv|].
  rewrite run_cons. cbv zeta.
  pose proof (cycle_valid_index env self Hv) as Hv'.
  destruct (result (send_announcement env self)); cbn [final]; auto.
Qed.

Lemma run_announcements (envs : list CycleEnv) :
  forall self, announcements (final (run envs self)) = announcements self.
Proof.
  induction envs as [|env rest IH]; intros self; [reflexivity|].
  rewrite run_cons. cbv zeta.
  pose proof (cycle_announcements env self) as Ha.
  destruct (result (send_announcement env self)); cbn [final];
    [exact Ha | rewrite IH; exact Ha].
Qed.

(** The cursor counts the accepted posts, modulo the length of the list,
    whatever failures come in between. *)
Lemma run_index_counts_successes (envs : list CycleEnv) :
  forall self,
    valid_index self ->
    let r := run envs self in
    index (final r) =
      (index self + Z.of_nat (successes (cycles r)))
        mod Z.of_nat (List.length (announcements self)).
Proof.
  induction envs as [|env rest IH]; intros self Hv; cbv zeta.
  - cbn. rewrite Z.add_0_r. symmetry. apply Z.mod_small. exact Hv.
  - rewrite run_cons. cbv zeta.
    pose proof (cycle_state env self) as Hs.
    pose proof (cycle_valid_index env self Hv) as Hv'.
    pose proof (cycle_sent_result env self) as Hr.
    cbv zeta in Hs, Hr.
    destruct (result (send_announcement env self)) as [e|[]] eqn:Hres.
    + cbn [final cycles]. unfold successes. cbn [filter].
      destruct (sent_ok (trace (send_announcement env self))).
      * specialize (Hr eq_refl). discriminate.
      * rewrite Hs. cbn [List.length]. rewrite Z.add_0_r.
        symmetry. apply Z.mod_small. exact Hv.
    + cbn [final cycles]. rewrite (IH _ Hv'). cbv zeta.
      unfold successes. cbn [filter]. rewrite Hs.
      destruct (sent_ok (trace (send_announcement env self))).
      * cbn [set_index index announcements List.length].
        rewrite Z.add_mod_idemp_l by (unfold valid_index in Hv; lia).
        f_equal. lia.
      * reflexivity.
Qed.

Lemma successes_all (cs : list (list Event)) :
  Forall (fun tr => sent_ok tr = true) cs -> successes cs = List.length cs.
Proof.
  unfold successes. induction 1 as [|tr cs Htr _ IH]; [reflexivity|].
  cbn [filter]. rewrite Htr. cbn [List.length]. rewrite IH. reflexivity.
Qed.

(** C3.  In every cycle the cursor becomes [(index + 1) mod len] when the
    cycle's post is answered with status 204 and keeps its value otherwise,
    nothing else of the object changing.  The one post a cycle can issue is
    the request of [post_announce] for the string [announcements[index]],
    and it is accepted exactly when the endpoint answers 204.  After a post
    that was issued and not accepted, the object is unchanged; the cycle
    ends normally when the failure is a wrong status or a timeout; and a
    following cycle sends the identical string [announcements[index]] or
    issues no post: it sends that string whenever it issues a post at all,
    as it does with the gate off once it is past its sleep.  Where the list
    has more than one message, the cursor moves if and only if the post
    was accepted. *)
Theorem C3_cursor_advances_iff_post_accepted (env : CycleEnv) (self : Looper) :
  let o := send_announcement env self in
  let len := Z.of_nat (List.length (announcements self)) in
  state o =
    (if sent_ok (trace o) then set_index self ((index self + 1) mod len)
     else self)
  /\ index (state o) =
       (if sent_ok (trace o) then (index self + 1) mod len else index self)
  /\ (posts (trace o) = []
      \/ exists a : string,
           subscript_list (announcements self) (index self) = inr a
           /\ posts (trace o) = [(announce_request self a, post_reply env)])
  /\ (sent_ok (trace o) = true <->
      posts (trace o) <> []
      /\ exists r : Response,
           post_reply env = Responds r /\ status_code r = 204)
  /\ (forall m : option string,
        sent_ok (trace o) = false ->
        posted (trace o) = [m] ->
        (exists a : string,
           m = Some a
           /\ subscript_list (announcements self) (index self) = inr a)
        /\ state o = self
        /\ (survivable (post_reply env) -> result o = inr tt)
        /\ forall env' : CycleEnv,
             let o' := send_announcement env' (state o) in
             (posted (trace o') = [] \/ posted (trace o') = [m])
             /\ (posts (trace o') <> [] -> posted (trace o') = [m])
             /\ (ignore_offline self = false -> wakes env' self ->
                 posted (trace o') = [m]))
  /\ (valid_index self -> 1 < len ->
      (index (state o) <> index self <-> sent_ok (trace o) = true)).
Proof.
  cbv zeta. pose proof (cycle_state env self) as Hs. cbv zeta in Hs.
  pose proof (cycle_posts env self) as Hp. cbv zeta in Hp.
  split; [exact Hs|]. split; [|split; [|split; [|split]]].
  - rewrite Hs. destruct (sent_ok _); reflexivity.
  - exact Hp.
  - unfold sent_ok.
    destruct Hp as [Hp|(a & Ha & Hp)]; rewrite Hp; cbn [existsb].
    + split; [discriminate|]. intros [H _]. elim H. reflexivity.
    + unfold accepted. cbn [snd]. rewrite orb_false_r.
      destruct (post_reply env) as [e|r].
      * split; [discriminate|]. intros (_ & r' & Hr & _). discriminate.
      * split.
        -- intros H. apply Z.eqb_eq in H. split; [discriminate|].
           exists r. split; [reflexivity|exact H].
        -- intros (_ & r' & Hr & H). injection Hr as <-.
           apply Z.eqb_eq. exact H.
  - intros m Hfail Hm. rewrite Hfail in Hs.
    assert (Ha : exists a : string,
               m = Some a
               /\ subscript_list (announcements self) (index self) = inr a
               /\ posts (trace (send_announcement env self)) <> []).
    { unfold posted in Hm.
      destruct Hp as [Hp|(a & Ha & Hp)]; rewrite Hp in Hm;
        [discriminate|].
      cbn in Hm. injection Hm as <-. exists a.
      split; [reflexivity|]. split; [exact Ha|]. rewrite Hp. discriminate. }
    destruct Ha as (a & -> & Ha & Hne).
    split; [exists a; split; [reflexivity|exact Ha]|].
    split; [exact Hs|].
    split; [intros Hsv; apply cycle_post_result; assumption|].
    intros env'. rewrite Hs.
    pose proof (cycle_posts env' self) as Hp'. cbv zeta in Hp'.
    assert (Hnext : posts (trace (send_announcement env' self)) <> [] ->
                    posted (trace (send_announcement env' self)) = [Some a]).
    { intros Hne'. unfold posted.
      destruct Hp' as [Hp'|(a' & Ha' & Hp')]; [contradiction|].
      rewrite Hp'. cbn. congruence. }
    split.
    + unfold posted in *. destruct Hp' as [Hp'|(a' & Ha' & Hp')].
      * left. rewrite Hp'. reflexivity.
      * right. apply Hnext. rewrite Hp'. discriminate.
    + split; [exact Hnext|].
      intros Hg Hw. unfold posted.
      rewrite (cycle_posts_ungated env' self a Hg Hw Ha). reflexivity.
  - intros Hv Hlen. rewrite Hs.
    destruct (sent_ok _); cbn [set_index index]; split; intros H;
      try reflexivity; try discriminate; try congruence.
    unfold valid_index in Hv. intros Heq.
    destruct (Z.eq_dec (index self + 1)
                (Z.of_nat (List.length (announcements self)))) as [E|E].
    + rewrite E, Z.mod_same in Heq by lia. lia.
    + rewrite Z.mod_small in Heq by lia. lia.
Qed.

(** The wait of a sample cycle is computed and slept. *)
Ltac wakes_now :=
  eexists; split;
  [ vm_compute; reflexivity
  | split; [eexists; vm_compute; reflexivity
           | split; vm_compute; reflexivity] ].

(** The scenario of the specification: a post answered 500 leaves the
    cursor where it was, the cycle ends normally, and the next cycle sends
    "A" again. *)
Lemma C3_cursor_advances_iff_post_accepted_witness :
  let env := mid_interval live server_error in
  let o := send_announcement env (abc false) in
  state o = abc false
  /\ result o = inr tt
  /\ posted (trace (send_announcement env (state o))) = [Some "A"]
  /\ (index (state o) <> index (abc false) <-> sent_ok (trace o) = true).
Proof.
  cbv zeta.
  destruct (C3_cursor_advances_iff_post_accepted
              (mid_interval live server_error) (abc false))
    as (_ & _ & _ & _ & Hfail & Hiff).
  assert (H1 : sent_ok (trace (send_announcement
                                 (mid_interval live server_error)
                                 (abc false))) = false)
    by (vm_compute; reflexivity).
  assert (H2 : posted (trace (send_announcement
                                (mid_interval live server_error)
                                (abc false))) = [Some "A"])
    by (vm_compute; reflexivity).
  destruct (Hfail (Some "A") H1 H2) as (_ & Hst & Hres & Hnext).
  split; [exact Hst|]. split; [apply Hres; exact I|]. split.
  - apply (Hnext (mid_interval live server_error)); [reflexivity|].
    wakes_now.
  - apply Hiff; [split; reflexivity | reflexivity].
Defined.

(** C4.  Starting from the cursor 0 of a fresh object with a non-empty
    list, after [N] cycles that each had their post accepted the cursor is
    [N mod L]. *)
Theorem C4_cursor_after_successes
  (anns : list string) (gate : bool) (bid mid : string) (ival : float)
  (cid tok : string) (envs : list CycleEnv) :
  anns <> [] ->
  let r := run envs (__init__ anns gate bid mid ival cid tok) in
  Forall (fun tr => sent_ok tr = true) (cycles r) ->
  index (final r)
  = Z.of_nat (List.length (cycles r)) mod Z.of_nat (List.length anns).
Proof.
  intros Hne r Hall.
  assert (Hv : valid_index (__init__ anns gate bid mid ival cid tok)).
  { unfold valid_index. cbn. destruct anns; [congruence|]. cbn. lia. }
  pose proof (run_index_counts_successes envs _ Hv) as Hi.
  cbv zeta in Hi. fold r in Hi. rewrite Hi.
  rewrite (successes_all _ Hall). reflexivity.
Qed.

(** The scenario of the specification: three accepted posts of "A", "B",
    "C" bring the cursor back to 0, and the fourth message is "A". *)
Lemma C4_cursor_after_successes_witness :
  let envs := [on_boundary; on_boundary; on_boundary; on_boundary] in
  let r := run envs (abc false) in
  map posted (cycles r) = [[Some "A"]; [Some "B"]; [Some "C"]; [Some "A"]]
  /\ List.length (cycles r) = 4%nat
  /\ index (final r) = 1.
Proof.
  cbv zeta. split; [vm_compute; reflexivity|].
  split; [vm_compute; reflexivity|].
  change 1 with (Z.of_nat 4 mod Z.of_nat 3).
  refine (C4_cursor_after_successes ["A"; "B"; "C"] false "1234" "5678"
            seconds_300 "client" "token"
            [on_boundary; on_boundary; on_boundary; on_boundary] _ _).
  - discriminate.
  - apply Forall_forall. intros tr Hin.
    refine (proj1 (forallb_forall sent_ok _) _ tr Hin).
    vm_compute. reflexivity.
Defined.

(** C5.  With a non-empty list, [0 <= index < len(announcements)] holds of
    the fresh object, is kept by every cycle whatever the status check and
    the post answer (an exception included), and so holds all along the
    loop; the list itself never changes. *)
Theorem C5_cursor_in_range
  (anns : list string) (gate : bool) (bid mid : string) (ival : float)
  (cid tok : string) :
  anns <> [] ->
  valid_index (__init__ anns gate bid mid ival cid tok)
  /\ (forall (env : CycleEnv) (self : Looper),
        valid_index self ->
        valid_index (state (send_announcement env self))
        /\ announcements (state (send_announcement env self))
           = announcements self)
  /\ (forall envs : list CycleEnv,
        let r := run envs (__init__ anns gate bid mid ival cid tok) in
        valid_index (final r) /\ announcements (final r) = anns).
Proof.
  intros Hne.
  assert (Hv : valid_index (__init__ anns gate bid mid ival cid tok)).
  { unfold valid_index. cbn. destruct anns; [congruence|]. cbn. lia. }
  split; [exact Hv|]. split.
  - intros env self Hs. split;
      [apply cycle_valid_index, Hs | apply cycle_announcements].
  - intros envs. cbv zeta. split;
      [apply run_valid_index, Hv | apply run_announcements].
Qed.

Lemma C5_cursor_in_range_witness :
  valid_index (abc true)
  /\ valid_index
       (final (run [mid_interval live no_content;
                    mid_interval not_live no_content;
                    mid_interval live connection_error] (abc true))).
Proof.
  destruct (C5_cursor_in_range ["A"; "B"; "C"] true "1234" "5678" seconds_300
              "client" "token") as (H0 & _ & Hrun); [discriminate|].
  split; [exact H0|].
  exact (proj1 (Hrun [mid_interval live no_content;
                      mid_interval not_live no_content;
                      mid_interval live connection_error])).
Defined.

(** ** The online gate and request failures (claims C6, C7, C8 and C10) *)

Lemma is_timeout_inv (e : exn) :
  is_timeout e = true -> exists c, e = Timeout c.
Proof. destruct e; try discriminate. intros _. eexists. reflexivity. Qed.

Ltac in_list := cbn [In]; repeat first [left; reflexivity | right].

Ltac skip_done :=
  split; [reflexivity | split; [reflexivity|]];
  let w := fresh "w" in
  let Hs := fresh "Hs" in
  intros w Hs;
  first [ discriminate Hs
        | split; [reflexivity | split; [in_list | reflexivity]] ].

(** The skipped cycle, with "the cycle gets past its sleep" read off the
    trace. *)
Lemma cycle_skipped (env : CycleEnv) (self : Looper) :
  ignore_offline self = true ->
  not_confirmed_online (get_reply env) ->
  let o := send_announcement env self in
  posts (trace o) = []
  /\ state o = self
  /\ (forall w : Q, slept (trace o) = [w] ->
      status_queries (trace o) = [(status_request self, get_reply env)]
      /\ logged InfoOffline (trace o)
      /\ result o = inr tt).
Proof.
  intros Hg Hoff. unfold status_request, logged.
  inversion Hoff as [e He Hr | r Hs Hr | r fields Hs Hj Hd Hr].
  - destruct (is_timeout_inv e He) as [c ->].
    py_exec env self; skip_done.
  - apply Z.eqb_neq in Hs.
    py_exec env self; skip_done.
  - apply Z.eqb_eq in Hs.
    py_exec env self; skip_done.
Qed.

(** C6.  With [ignore_offline] set, when the status check does not confirm
    the channel online (timeout, status other than 200, or an empty [data]
    list), the cycle issues no post and leaves the object, and so the
    cursor, as it was.  It is a cycle that gets past its sleep that gets to
    the status check at all: it then issues that one query, logs the skip
    and ends normally, so that the loop goes on with the next cycle. *)
Theorem C6_offline_cycle_is_skipped (env : CycleEnv) (self : Looper) :
  ignore_offline self = true ->
  not_confirmed_online (get_reply env) ->
  let o := send_announcement env self in
  posts (trace o) = []
  /\ state o = self
  /\ (wakes env self ->
      status_queries (trace o) = [(status_request self, get_reply env)]
      /\ logged InfoOffline (trace o)
      /\ result o = inr tt).
Proof.
  intros Hg Hoff o.
  destruct (cycle_skipped env self Hg Hoff) as (Hp & Hs & H). fold o in Hp, Hs, H.
  split; [exact Hp|]. split; [exact Hs|].
  intros Hw. apply wakes_slept in Hw. destruct Hw as [w Hw].
  exact (H w Hw).
Qed.

(** The scenario of the specification: 200 with [data: []] and the gate
    on. *)
Lemma C6_offline_cycle_is_skipped_witness :
  let env := mid_interval not_live no_content in
  let o := send_announcement env (abc true) in
  posts (trace o) = []
  /\ state o = abc true
  /\ status_queries (trace o) = [(status_request (abc true), get_reply env)]
  /\ logged InfoOffline (trace o)
  /\ result o = inr tt.
Proof.
  cbv zeta.
  destruct (C6_offline_cycle_is_skipped
              (mid_interval not_live no_content) (abc true) eq_refl)
    as (Hp & Hs & H).
  - apply (status_no_stream _ [("data", JArr [])]); reflexivity.
  - split; [exact Hp|]. split; [exact Hs|]. apply H. wakes_now.
Defined.

Lemma cycle_config (env : CycleEnv) (self : Looper) :
  ignore_offline (state (send_announcement env self)) = ignore_offline self
  /\ interval (state (send_announcement env self)) = interval self.
Proof.
  pose proof (cycle_state env self) as Hs. cbv zeta in Hs.
  rewrite Hs. destruct (sent_ok _); split; reflexivity.
Qed.

(** Whether a later cycle gets past its sleep is not changed by the cycles
    before it. *)
Lemma wakes_state (env env' : CycleEnv) (self : Looper) :
  wakes env' (state (send_announcement env self)) <-> wakes env' self.
Proof.
  pose proof (cycle_state env self) as Hs. cbv zeta in Hs.
  rewrite Hs. destruct (sent_ok _); reflexivity.
Qed.

Lemma run_no_status_query (envs : list CycleEnv) :
  forall self,
    ignore_offline self = false ->
    Forall (fun tr => status_queries tr = []) (cycles (run envs self)).
Proof.
  induction envs as [|env rest IH]; intros self Hg; [constructor|].
  rewrite run_cons. cbv zeta.
  pose proof (cycle_no_status_query env self Hg) as Hq.
  destruct (cycle_config env self) as [Hg' _]. rewrite Hg in Hg'.
  destruct (result (send_announcement env self)); cbn [cycles];
    constructor; auto.
Qed.

Lemma run_posts_every_cycle (envs : list CycleEnv) :
  forall self,
    ignore_offline self = false ->
    Forall (fun env => wakes env self) envs ->
    valid_index self ->
    Forall (fun tr => List.length (posts tr) = 1%nat) (cycles (run envs self)).
Proof.
  induction envs as [|env rest IH]; intros self Hg Hw Hv; [constructor|].
  rewrite run_cons. cbv zeta.
  inversion Hw as [|? ? Hw1 Hw2]; subst.
  destruct (subscript_list_valid (announcements self) (index self) Hv)
    as [m [Hm _]].
  pose proof (cycle_posts_ungated env self m Hg Hw1 Hm) as Hp.
  destruct (cycle_config env self) as [Hg' Hi'].
  pose proof (cycle_valid_index env self Hv) as Hv'.
  assert (Hone : List.length (posts (trace (send_announcement env self)))
                 = 1%nat) by (rewrite Hp; reflexivity).
  destruct (result (send_announcement env self)); cbn [cycles];
    constructor; auto.
  apply IH; [congruence | | exact Hv'].
  apply Forall_forall. intros env' Hin. apply wakes_state.
  exact (proj1 (Forall_forall _ _) Hw2 env' Hin).
Qed.

Lemma run_cycles_nonempty (env : CycleEnv) (rest : list CycleEnv)
  (self : Looper) :
  cycles (run (env :: rest) self) <> [].
Proof.
  rewrite run_cons. cbv zeta.
  destruct (result (send_announcement env self)); cbn [cycles]; discriminate.
Qed.

(** Without the gate, a cycle that issues no post raises. *)
Lemma cycle_ungated_no_post (env : CycleEnv) (self : Looper) :
  ignore_offline self = false ->
  let o := send_announcement env self in
  posts (trace o) = [] -> exists e : exn, result o = inl e.
Proof.
  intros Hg.
  py_exec env self; intros Hp; try discriminate Hp;
    eexists; reflexivity.
Qed.

(** A cycle that issues a post got past its sleep. *)
Lemma cycle_post_awake (env : CycleEnv) (self : Looper) :
  let o := send_announcement env self in
  posts (trace o) <> [] -> exists w : Q, slept (trace o) = [w].
Proof.
  py_exec env self; intros Hp; try (elim Hp; reflexivity);
    eexists; reflexivity.
Qed.

(** C7, counterexample.  With [ignore_offline] off and an interval of
    300 s, a cycle of an object with an empty list of announcements sleeps
    and then raises [IndexError] without a post; with the list "A", "B",
    "C" and an interval of 1e14 s, line 62 raises [OverflowError] before
    the sleep, and again there is no post. *)
Lemma C7_ungated_cycle_without_post :
  let env := mid_interval live no_content in
  let empty := __init__ [] false "1234" "5678" seconds_300 "client" "token" in
  let slow :=
    __init__ ["A"; "B"; "C"] false "1234" "5678" seconds_1e14 "client"
      "token" in
  ignore_offline empty = false
  /\ posts (trace (send_announcement env empty)) = []
  /\ result (send_announcement env empty) = inl IndexError
  /\ ignore_offline slow = false
  /\ posts (trace (send_announcement env slow)) = []
  /\ result (send_announcement env slow) = inl OverflowError.
Proof. cbv zeta. repeat split; vm_compute; reflexivity. Qed.

(** C7, amended.  With [ignore_offline] off no cycle of the loop queries
    the status endpoint.  A cycle issues its post, exactly one, of
    [announcements[index]] and whatever the two endpoints would answer,
    when it gets past its sleep with the cursor in range; a cycle that
    issues a post did get past its sleep and has such a message; and a
    cycle that issues no post raises and so ends the loop. *)
Theorem C7_ungated_cycle_posts_when_awake (self : Looper) :
  ignore_offline self = false ->
  (forall envs : list CycleEnv,
     Forall (fun tr => status_queries tr = []) (cycles (run envs self)))
  /\ (forall env : CycleEnv,
        let o := send_announcement env self in
        (wakes env self -> valid_index self ->
         exists m : string,
           subscript_list (announcements self) (index self) = inr m
           /\ posts (trace o) = [(announce_request self m, post_reply env)])
        /\ (posts (trace o) <> [] ->
            wakes env self
            /\ exists m : string,
                 subscript_list (announcements self) (index self) = inr m
                 /\ posts (trace o)
                    = [(announce_request self m, post_reply env)])
        /\ (posts (trace o) = [] -> exists e : exn, result o = inl e))
  /\ (valid_index self ->
      forall envs : list CycleEnv,
        Forall (fun env => wakes env self) envs ->
        Forall (fun tr => List.length (posts tr) = 1%nat)
               (cycles (run envs self)))
  /\ (forall env rest, cycles (run (env :: rest) self) <> []).
Proof.
  intros Hg. split; [|split; [|split]].
  - intros envs. apply run_no_status_query, Hg.
  - intros env o. split; [|split].
    + intros Hw Hv.
      destruct (subscript_list_valid (announcements self) (index self) Hv)
        as [m [Hm _]].
      exists m. split; [exact Hm|].
      apply cycle_posts_ungated; assumption.
    + intros Hp. split.
      * apply wakes_slept. apply cycle_post_awake. exact Hp.
      * destruct (cycle_posts env self) as [H|H]; [contradiction|exact H].
    + apply cycle_ungated_no_post, Hg.
  - intros Hv envs Hw. apply run_posts_every_cycle; assumption.
  - intros env rest. apply run_cycles_nonempty.
Qed.

Lemma C7_ungated_cycle_posts_when_awake_witness :
  let envs := [mid_interval not_live no_content;
               mid_interval read_timeout server_error;
               mid_interval connection_error read_timeout] in
  Forall (fun tr => status_queries tr = []) (cycles (run envs (abc false)))
  /\ posts (trace (send_announcement (mid_interval not_live no_content)
                     (abc false)))
     = [(announce_request (abc false) "A", no_content)]
  /\ Forall (fun tr => List.length (posts tr) = 1%nat)
            (cycles (run envs (abc false)))
  /\ cycles (run envs (abc false)) <> [].
Proof.
  cbv zeta.
  destruct (C7_ungated_cycle_posts_when_awake (abc false) eq_refl)
    as (Hq & Hc & Hposts & Hne).
  assert (Hv : valid_index (abc false)) by (split; vm_compute; congruence).
  assert (Hw : forall g p, wakes (mid_interval g p) (abc false))
    by (intros g p; wakes_now).
  split; [apply Hq|]. split.
  - destruct (Hc (mid_interval not_live no_content)) as (H & _).
    destruct (H (Hw _ _) Hv) as (m & Hm & Hp).
    vm_compute in Hm. injection Hm as <-. exact Hp.
  - split; [|apply Hne].
    apply (Hposts Hv). repeat constructor; apply Hw.
Defined.

Ltac raised_in_trace H :=
  cbn [In] in H;
  repeat (destruct H as [H|H]; [try discriminate; injection H as <- <-|]);
  try contradiction.

(** What a raising request does to its cycle. *)
Lemma cycle_request_raises (env : CycleEnv) (self : Looper)
  (rq : Request) (e : exn) :
  let o := send_announcement env self in
  In (Http rq (Raises e)) (trace o) ->
  state o = self
  /\ result o = (if is_timeout e then inr tt else inl e)
  /\ (is_timeout e = true -> logged ErrorTimedOut (trace o)).
Proof.
  unfold logged.
  py_exec env self; intros HIn; raised_in_trace HIn;
    cbn [is_timeout]; repeat split; try reflexivity;
    intros; solve [discriminate | in_list].
Qed.

Lemma status_check_issued (env : CycleEnv) (self : Looper) :
  ignore_offline self = true ->
  wakes env self ->
  In (Http (status_request self) (get_reply env))
     (trace (send_announcement env self)).
Proof.
  intros Hg Hw. awake Hw. unfold status_request.
  py_exec env self; intros w Hs; try discriminate Hs; in_list.
Qed.

Lemma post_issued (env : CycleEnv) (self : Looper) (m : string) :
  ignore_offline self = false ->
  wakes env self ->
  subscript_list (announcements self) (index self) = inr m ->
  In (Http (announce_request self m) (post_reply env))
     (trace (send_announcement env self)).
Proof.
  intros Hg Hw Hm. awake Hw. unfold announce_request.
  py_exec env self; intros w Hs; try discriminate Hs;
    first [congruence | try (injection Hm as <-); in_list].
Qed.

(** C8.  A request of a cycle that raises a [Timeout], be it the status
    check or the post, is caught: the cycle logs it, leaves the cursor
    alone and ends normally, and the loop goes on with the next cycle.  A
    request that raises anything else is not caught: the exception leaves
    the cycle and ends the loop.  Both requests are indeed issued, with
    whatever the endpoint does, when the cycle gets to them. *)
Theorem C8_only_timeouts_are_caught (env : CycleEnv) (self : Looper) :
  let o := send_announcement env self in
  (forall (rq : Request) (e : exn),
     In (Http rq (Raises e)) (trace o) ->
     state o = self
     /\ (is_timeout e = true ->
         result o = inr tt
         /\ logged ErrorTimedOut (trace o)
         /\ forall rest : list CycleEnv,
              run (env :: rest) self
              = mkRun (trace o :: cycles (run rest self))
                      (final (run rest self)) (raised (run rest self)))
     /\ (is_timeout e = false ->
         result o = inl e
         /\ forall rest : list CycleEnv,
              run (env :: rest) self = mkRun [trace o] self (Some e)))
  /\ (ignore_offline self = true -> wakes env self ->
      In (Http (status_request self) (get_reply env)) (trace o))
  /\ (ignore_offline self = false -> wakes env self ->
      valid_index self ->
      exists m, In (Http (announce_request self m) (post_reply env)) (trace o)).
Proof.
  cbv zeta. split; [|split].
  - intros rq e HIn.
    destruct (cycle_request_raises env self rq e HIn) as (Hst & Hres & Hlog).
    split; [exact Hst|]. split; intros Ht; rewrite Ht in Hres.
    + split; [exact Hres|]. split; [exact (Hlog Ht)|].
      intros rest. rewrite run_cons. cbv zeta. rewrite Hres, Hst.
      reflexivity.
    + split; [exact Hres|].
      intros rest. rewrite run_cons. cbv zeta. rewrite Hres, Hst.
      reflexivity.
  - apply status_check_issued.
  - intros Hg Hpos Hv.
    destruct (subscript_list_valid (announcements self) (index self) Hv)
      as [m [Hm _]].
    exists m. apply post_issued; assumption.
Qed.

(** A post that times out and, in the next cycle, a status check that times
    out are both survived; a connection error of the post ends the loop in
    the third cycle, the fourth environment never being used. *)
Lemma C8_only_timeouts_are_caught_witness :
  let e1 := mid_interval live read_timeout in
  let e2 := mid_interval read_timeout no_content in
  let e3 := mid_interval live connection_error in
  (forall rest,
     run (e1 :: rest) (abc true)
     = mkRun (trace (send_announcement e1 (abc true))
                :: cycles (run rest (abc true)))
             (final (run rest (abc true))) (raised (run rest (abc true))))
  /\ (forall rest,
        run (e2 :: rest) (abc true)
        = mkRun (trace (send_announcement e2 (abc true))
                   :: cycles (run rest (abc true)))
                (final (run rest (abc true))) (raised (run rest (abc true))))
  /\ (forall rest,
        run (e3 :: rest) (abc true)
        = mkRun [trace (send_announcement e3 (abc true))] (abc true)
                (Some (RequestException "ConnectionError"))).
Proof.
  cbv zeta. split; [|split].
  - destruct (C8_only_timeouts_are_caught
                (mid_interval live read_timeout) (abc true)) as [H _].
    destruct (H (announce_request (abc true) "A") (Timeout ReadTimeout))
      as (_ & Hcaught & _); [vm_compute; tauto|].
    exact (proj2 (proj2 (Hcaught eq_refl))).
  - destruct (C8_only_timeouts_are_caught
                (mid_interval read_timeout no_content) (abc true)) as [H _].
    destruct (H (status_request (abc true)) (Timeout ReadTimeout))
      as (_ & Hcaught & _); [vm_compute; tauto|].
    exact (proj2 (proj2 (Hcaught eq_refl))).
  - destruct (C8_only_timeouts_are_caught
                (mid_interval live connection_error) (abc true)) as [H _].
    destruct (H (announce_request (abc true) "A")
                (RequestException "ConnectionError"))
      as (_ & _ & Hfatal); [vm_compute; tauto|].
    exact (proj2 (Hfatal eq_refl)).
Defined.

(** C10.  With the gate on, a status answer 200 whose body is not JSON with
    a ['data'] key makes [get_online] raise [JSONDecodeError], [TypeError]
    or [KeyError]; none of them is a [Timeout], so the cycle does not end
    as an offline skip: the exception leaves it, before any post, and ends
    the loop. *)
Theorem C10_malformed_status_body_is_fatal
  (env : CycleEnv) (self : Looper) (r : Response) :
  ignore_offline self = true ->
  wakes env self ->
  get_reply env = Responds r ->
  status_code r = 200 ->
  has_data_key r = false ->
  let o := send_announcement env self in
  exists e : exn,
    result o = inl e
    /\ is_timeout e = false
    /\ (e = JSONDecodeError \/ e = TypeError \/ e = KeyError "data")
    /\ ~ logged InfoOffline (trace o)
    /\ ~ logged ErrorTimedOut (trace o)
    /\ posts (trace o) = []
    /\ state o = self
    /\ forall rest : list CycleEnv,
         run (env :: rest) self = mkRun [trace o] self (Some e).
Proof.
  intros Hg Hw Hr Hs Hk. cbv zeta.
  assert (Hcore :
    exists e : exn,
      result (send_announcement env self) = inl e
      /\ is_timeout e = false
      /\ (e = JSONDecodeError \/ e = TypeError \/ e = KeyError "data")
      /\ ~ logged InfoOffline (trace (send_announcement env self))
      /\ ~ logged ErrorTimedOut (trace (send_announcement env self))
      /\ posts (trace (send_announcement env self)) = []
      /\ state (send_announcement env self) = self).
  { apply Z.eqb_eq in Hs. unfold has_data_key in Hk. unfold logged.
    awake Hw.
    destruct (json r) as [body|] eqn:Hj.
    - destruct body as [ | b | q | s | items | fields ];
        try (py_exec env self; intros w0 Hsl; try discriminate Hsl;
             eexists; repeat split;
             try reflexivity; try (right; left; reflexivity);
             cbn [In]; intros HIn; raised_in_trace HIn).
      destruct (assoc "data" fields) as [v|] eqn:Ha; [discriminate|].
      py_exec env self; intros w0 Hsl; try discriminate Hsl;
        eexists; repeat split;
        try reflexivity; try (right; right; reflexivity);
        cbn [In]; intros HIn; raised_in_trace HIn.
    - py_exec env self; intros w0 Hsl; try discriminate Hsl;
        eexists; repeat split;
        try reflexivity; try (left; reflexivity);
        cbn [In]; intros HIn; raised_in_trace HIn. }
  destruct Hcore as (e & Hres & Ht & Hkind & Hoff & Hto & Hp & Hst).
  exists e. repeat (split; [assumption|]).
  intros rest. rewrite run_cons. cbv zeta. rewrite Hres, Hst. reflexivity.
Qed.

(** A status answer 200 carrying an error page, or a JSON object without
    ['data'], ends the loop in its first cycle. *)
Lemma C10_malformed_status_body_is_fatal_witness :
  let page := mkResponse 200 "<html>Bad Gateway</html>" None in
  let env := mid_interval (Responds page) no_content in
  exists e : exn,
    result (send_announcement env (abc true)) = inl e
    /\ is_timeout e = false
    /\ (e = JSONDecodeError \/ e = TypeError \/ e = KeyError "data")
    /\ ~ logged InfoOffline (trace (send_announcement env (abc true)))
    /\ ~ logged ErrorTimedOut (trace (send_announcement env (abc true)))
    /\ posts (trace (send_announcement env (abc true))) = []
    /\ state (send_announcement env (abc true)) = abc true
    /\ forall rest : list CycleEnv,
         run (env :: rest) (abc true)
         = mkRun [trace (send_announcement env (abc true))] (abc true)
                 (Some e).
Proof.
  apply (C10_malformed_status_body_is_fatal
           (mid_interval
              (Responds (mkResponse 200 "<html>Bad Gateway</html>" None))
              no_content)
           (abc true)
           (mkResponse 200 "<html>Bad Gateway</html>" None));
    first [reflexivity | wakes_now].
Defined.

(** ** Further properties of the wait *)

Section WaitExtras.

Local Open Scope Q_scope.

(** At a wall-clock time and for a positive finite interval, a cycle that
    gets past its sleep sleeps for the double nearest to the shortest
    positive time [x] from [elapsed] to a multiple of the interval: every
    positive [t] with [(elapsed + t) mod I == 0] is at least [x], and when
    [t] is a double it is at least the slept duration too. *)
Theorem wait_is_least_to_boundary
  (env : CycleEnv) (self : Looper) (i : Q) :
  valid_clock (now env) ->
  fl (interval self) = Finite i ->
  0 < i ->
  wakes env self ->
  exists el x w : Q,
    elapsed (now env) = inr (Finite el)
    /\ slept (trace (send_announcement env self)) = [w]
    /\ w == round64 x
    /\ 0 < x
    /\ Qmod (el + x) i == 0
    /\ forall t : Q,
         0 < t -> Qmod (el + t) i == 0 -> x <= t /\ (is_rep t -> w <= t).
Proof.
  intros Hv Hi Hpos Hw.
  destruct (wait_value (now env) self i Hv Hi Hpos)
    as (el & x & w & He & _ & Hx & Hwo & Hwx & _ & _).
  destruct (Qmod_bounds el i Hpos) as [Hlo Hhi].
  exists el, x, w. split; [exact He|].
  split.
  { destruct (cycle_slept env self) as [_ Hc]. cbv zeta in Hc.
    destruct Hw as (w' & Hw' & Hsl). rewrite Hwo in Hw'.
    injection Hw' as <-. apply Hc; assumption. }
  split; [exact Hwx|]. split; [lra|].
  split; [rewrite Hx; apply Qmod_aligned; lra|].
  intros t Ht Hal.
  assert (Hxt : x <= t) by (rewrite Hx; apply Qmod_least; assumption).
  split; [exact Hxt|].
  intros Hrep. rewrite Hwx. apply round64_le; assumption.
Qed.

(** At 13:07:30 on the 17th and an interval of 300 s the cycle sleeps
    150 s; 450 s also leads to a boundary. *)
Lemma wait_is_least_to_boundary_witness :
  exists el x w : Q,
    elapsed (now (mid_interval live no_content)) = inr (Finite el)
    /\ slept (trace (send_announcement (mid_interval live no_content)
                       (abc false))) = [w]
    /\ w == round64 x
    /\ x <= 450 /\ w <= 450.
Proof.
  assert (Hv : valid_clock (now (mid_interval live no_content)))
    by (unfold valid_clock; cbn; lia).
  assert (Hw : wakes (mid_interval live no_content) (abc false))
    by wakes_now.
  destruct (wait_is_least_to_boundary (mid_interval live no_content)
              (abc false) 300 Hv eq_refl eq_refl Hw)
    as (el & x & w & He & Hs & Hwx & _ & _ & Hleast).
  exists el, x, w.
  split; [exact He|]. split; [exact Hs|]. split; [exact Hwx|].
  vm_compute in He. injection He as <-.
  destruct (Hleast 450) as [H1 H2];
    [reflexivity | vm_compute; reflexivity |].
  split; [exact H1|]. apply H2. unfold is_rep. vm_compute. reflexivity.
Defined.

(** When a day is a whole number of intervals and the count of seconds is
    itself a double (as on a whole second), the day of the month drops
    out: the wait is the double nearest to the interval less the remainder
    of the time since the start of the hour. *)
Theorem wait_ignores_day_when_interval_divides_day
  (env : CycleEnv) (self : Looper) (i : Q) (k : Z) :
  valid_clock (now env) ->
  fl (interval self) = Finite i ->
  0 < i ->
  inject_Z 86400 == i * inject_Z k ->
  is_rep (elapsed_exact (now env)) ->
  exists w : Q,
    wait_of self (now env) = inr (Finite w)
    /\ w == round64 (i - Qmod (elapsed_seconds_in_hour (now env)) i)
    /\ (forall d : Q,
          In d (slept (trace (send_announcement env self))) -> d = w)
    /\ (wakes env self ->
        slept (trace (send_announcement env self)) = [w]).
Proof.
  intros Hv Hi Hpos Hk Hrep.
  destruct (wait_value (now env) self i Hv Hi Hpos)
    as (el & x & w & He & Hr & Hx & Hwo & Hwx & _ & _).
  assert (Hnz : ~ i == 0) by lra.
  exists w. split; [exact Hwo|].
  destruct (cycle_slept env self) as [Hs Hc]. cbv zeta in Hs, Hc.
  split; [|split].
  - rewrite Hwx. apply round64_comp. rewrite Hx.
    assert (E : el == elapsed_seconds_in_hour (now env)
                      + i * inject_Z (day (now env) * k)).
    { rewrite Hr. unfold is_rep in Hrep. rewrite Hrep.
      rewrite elapsed_exact_split, inject_Z_mult, Hk. ring. }
    rewrite E, Qmod_add_multiple by exact Hnz. reflexivity.
  - intros d Hd. destruct Hs as [Hs|(q & Hs & Hq & _)]; rewrite Hs in Hd;
      cbn [In] in Hd; [contradiction|].
    destruct Hd as [<-|[]]. congruence.
  - intros (w' & Hw' & Hsl). rewrite Hwo in Hw'. injection Hw' as <-.
    apply Hc; assumption.
Qed.

Lemma wait_ignores_day_when_interval_divides_day_witness :
  exists w : Q,
    slept (trace (send_announcement (mid_interval live no_content)
                    (abc false))) = [w]
    /\ w == round64 (300 - Qmod (elapsed_seconds_in_hour
                                   (now (mid_interval live no_content)))
                                300).
Proof.
  assert (Hv : valid_clock (now (mid_interval live no_content)))
    by (unfold valid_clock; cbn; lia).
  assert (Hrep : is_rep (elapsed_exact (now (mid_interval live no_content))))
    by (unfold is_rep; vm_compute; reflexivity).
  destruct (wait_ignores_day_when_interval_divides_day
              (mid_interval live no_content) (abc false) 300 288
              Hv eq_refl eq_refl eq_refl Hrep)
    as (w & _ & Hw & _ & Hs).
  exists w. split; [apply Hs; wakes_now | exact Hw].
Defined.

End WaitExtras.

(** ** What ends the loop *)

Lemma subscript_list_inl {A : Type} (l : list A) (i : Z) (e : exn) :
  subscript_list l i = inl e ->
  e = IndexError
  /\ ~ (- Z.of_nat (List.length l) <= i < Z.of_nat (List.length l)).
Proof.
  unfold subscript_list.
  destruct (i <? 0) eqn:Hi;
    destruct ((0 <=? _) && (_ <? _)) eqn:Hr.
  - destruct (nth_error l _) eqn:Hn; [discriminate|].
    apply nth_error_None in Hn. apply andb_true_iff in Hr. lia.
  - intros H. injection H as <-. split; [reflexivity|].
    apply andb_false_iff in Hr. lia.
  - destruct (nth_error l _) eqn:Hn; [discriminate|].
    apply nth_error_None in Hn. apply andb_true_iff in Hr. lia.
  - intros H. injection H as <-. split; [reflexivity|].
    apply andb_false_iff in Hr. lia.
Qed.

Lemma check_days_inl (total : Z) (e : exn) :
  check_days total = inl e -> e = OverflowError.
Proof.
  unfold check_days. destruct (_ && _); [discriminate|].
  intros H. injection H as <-. reflexivity.
Qed.

(** Lines 55-58 can only raise [OverflowError], and not at a wall-clock
    time. *)
Lemma elapsed_inl (t : datetime) (e : exn) :
  elapsed t = inl e -> e = OverflowError /\ ~ valid_clock t.
Proof.
  intros H. split.
  - unfold elapsed in H. rewrite timedelta_one_second in H.
    destruct (timedelta _ _ _ _) as [e'|total] eqn:Ht.
    + injection H as <-. unfold timedelta in Ht.
      exact (check_days_inl _ _ Ht).
    + unfold timedelta_truediv, int_truediv in H.
      change (1000000 =? 0) with false in H. cbv iota in H.
      destruct (of_rounded _); [discriminate| |]; injection H as <-;
        reflexivity.
  - intros Hv. destruct (elapsed_valid t Hv) as (el & He & _).
    rewrite He in H. discriminate.
Qed.

(** Line 62 can only raise [ValueError] (a NaN) or [OverflowError]. *)
Lemma timedelta_of_seconds_inl (w : pyfloat) (e : exn) :
  timedelta_of_seconds w = inl e ->
  (w = NaN /\ e = ValueError) \/ (w <> NaN /\ e = OverflowError).
Proof.
  destruct w as [q|n|]; cbn [timedelta_of_seconds]; intros H.
  - right. split; [discriminate|]. exact (check_days_inl _ _ H).
  - right. split; [discriminate|]. injection H as <-. reflexivity.
  - left. split; [reflexivity|]. injection H as <-. reflexivity.
Qed.

(** The remainder only raises on a zero divisor. *)
Lemma float_mod_inl (v w : pyfloat) (e : exn) :
  float_mod v w = inl e ->
  e = ZeroDivisionError /\ exists i : Q, w = Finite i /\ (i == 0)%Q.
Proof.
  unfold float_mod. destruct w as [i|n|].
  - destruct (Qeq_bool i 0) eqn:Hz.
    + intros H. injection H as <-. split; [reflexivity|].
      exists i. split; [reflexivity|]. apply Qeq_bool_eq. exact Hz.
    + destruct v as [x| |]; try discriminate.
      destruct (Qeq_bool (fmod x i) 0); [discriminate|].
      destruct (Bool.eqb _ _); discriminate.
  - destruct v as [x| |]; try discriminate.
    destruct (Qeq_bool x 0); [discriminate|].
    destruct (Bool.eqb _ _); discriminate.
  - discriminate.
Qed.

Ltac line_62_accepted :=
  repeat match goal with
  | H : timedelta_of_seconds NaN = inr _ |- _ =>
      cbn [timedelta_of_seconds] in H; discriminate H
  | H : timedelta_of_seconds (Inf _) = inr _ |- _ =>
      cbn [timedelta_of_seconds] in H; discriminate H
  end.

(** Every way a cycle can raise.  The object is left as it was, no post
    was accepted, and the exception is one of: an [OverflowError] of lines
    55-58, which no wall-clock time gives; the division by a zero interval;
    the [ValueError] or [OverflowError] of line 62 on a wait that is NaN,
    infinite or too long for a [timedelta], these three before anything is
    logged; the refusal of [time.sleep] to sleep a time too long for the
    platform or negative, before any request; an exception other than a
    timeout raised by one of the two requests; the decoding of a 200
    status answer without ['data']; the [IndexError] of a cursor outside
    the list, before the post.  The wrap-around of the cursor itself never
    divides by zero. *)
Theorem cycle_raises_only_for (env : CycleEnv) (self : Looper) (e : exn) :
  let o := send_announcement env self in
  result o = inl e ->
  state o = self
  /\ sent_ok (trace o) = false
  /\ ((elapsed (now env) = inl e /\ e = OverflowError
       /\ ~ valid_clock (now env) /\ trace o = [])
      \/ ((exists i : Q, fl (interval self) = Finite i /\ (i == 0)%Q)
          /\ e = ZeroDivisionError /\ trace o = [])
      \/ ((exists w : pyfloat,
             wait_of self (now env) = inr w
             /\ timedelta_of_seconds w = inl e
             /\ (w = NaN /\ e = ValueError \/ w <> NaN /\ e = OverflowError))
          /\ trace o = [])
      \/ (exists q : Q,
            wait_of self (now env) = inr (Finite q)
            /\ trace o = [Log (InfoWaiting (Finite q))]
            /\ (sleep_too_long env q = true /\ e = OverflowError
                \/ sleep_too_long env q = false /\ (q < 0)%Q
                   /\ e = ValueError))
      \/ (exists rq, In (Http rq (Raises e)) (trace o))
         /\ is_timeout e = false
      \/ (ignore_offline self = true
          /\ (exists r, get_reply env = Responds r
                        /\ status_code r = 200 /\ has_data_key r = false)
          /\ (e = JSONDecodeError \/ e = TypeError \/ e = KeyError "data")
          /\ posts (trace o) = [])
      \/ (e = IndexError
          /\ ~ (- Z.of_nat (List.length (announcements self)) <= index self
                < Z.of_nat (List.length (announcements self)))
          /\ posts (trace o) = [])).
Proof.
  cbv zeta. unfold has_data_key, wait_of.
  py_exec env self; intros Hres; try discriminate;
    injection Hres as <-; (split; [reflexivity|]); (split; [reflexivity|]);
    line_62_accepted.
  all: try solve
    [ left;
      match goal with
      | H : elapsed _ = inl _ |- _ =>
          destruct (elapsed_inl _ _ H) as [-> Hnv]
      end;
      repeat split; assumption ].
  all: try solve
    [ right; left;
      match goal with
      | H : float_mod _ _ = inl _ |- _ =>
          destruct (float_mod_inl _ _ _ H) as (-> & i & Hi & Hz)
      end;
      split; [exists i; split; assumption | split; reflexivity] ].
  all: try solve
    [ right; right; left; split; [|reflexivity];
      match goal with
      | H : timedelta_of_seconds ?w = inl _ |- _ =>
          exists w; split; [reflexivity|]; split; [exact H|];
          exact (timedelta_of_seconds_inl _ _ H)
      end ].
  all: try solve
    [ right; right; right; left; eexists; split; [reflexivity|];
      split; [reflexivity|];
      first [ left; split; [assumption | reflexivity]
            | right; split; [assumption|]; split; [|reflexivity];
              apply is_negative_true; assumption ] ].
  all: try solve
    [ right; right; right; right; left; split;
      [eexists; in_list | reflexivity] ].
  all: try solve
    [ right; right; right; right; right; right;
      match goal with
      | H : subscript_list _ _ = inl _ |- _ =>
          destruct (subscript_list_inl _ _ _ H) as [-> Hrange]
      end;
      split; [reflexivity | split; [exact Hrange | reflexivity]] ].
  all: right; right; right; right; right; left; split; [reflexivity|];
    (split; [eexists; split; [reflexivity|]; split;
             [apply Z.eqb_eq; assumption|]; cbn [json];
             repeat match goal with
             | H : ?x = _ |- context [?x] => rewrite H
             end; reflexivity|]);
    split; [auto | reflexivity].
Qed.

(** An empty list met with the gate off: the first cycle raises
    [IndexError] when it fetches the message, not [ZeroDivisionError]. *)
Lemma cycle_raises_only_for_witness :
  let self := __init__ [] false "1234" "5678" seconds_300 "client" "token" in
  let o := send_announcement (mid_interval live no_content) self in
  result o = inl IndexError
  /\ state o = self
  /\ posts (trace o) = [].
Proof.
  cbv zeta.
  assert (Hres : result (send_announcement (mid_interval live no_content)
                           (__init__ [] false "1234" "5678" seconds_300
                              "client" "token"))
                 = inl IndexError) by (vm_compute; reflexivity).
  destruct (cycle_raises_only_for (mid_interval live no_content)
              (__init__ [] false "1234" "5678" seconds_300 "client" "token")
              IndexError Hres) as (Hst & _ & _).
  split; [exact Hres|]. split; [exact Hst | vm_compute; reflexivity].
Defined.

Lemma subscript_list_inr_range {A : Type} (l : list A) (i : Z) (x : A) :
  subscript_list l i = inr x ->
  - Z.of_nat (List.length l) <= i < Z.of_nat (List.length l).
Proof.
  unfold subscript_list.
  destruct (i <? 0) eqn:Hi;
    destruct ((0 <=? _) && (_ <? _)) eqn:Hr; try discriminate;
    intros _; apply andb_true_iff in Hr; lia.
Qed.

(** A cycle that does not sleep raises, before any request, and leaves the
    object as it was. *)
Lemma cycle_no_sleep_raises (env : CycleEnv) (self : Looper) :
  let o := send_announcement env self in
  slept (trace o) = [] ->
  (exists e : exn, result o = inl e)
  /\ methods_issued (trace o) = []
  /\ state o = self.
Proof.
  py_exec env self; intros Hs; try discriminate Hs;
    (split; [eexists; reflexivity | split; reflexivity]).
Qed.

(** A zero interval ends the loop in its first cycle with
    [ZeroDivisionError] at the remainder, before anything is logged.  A
    negative one does not always: the wait lies between the interval and
    0, [time.sleep] refuses it when it is below 0, and a cycle that does
    sleep sleeps for 0 s. *)
Theorem nonpositive_interval_never_waits
  (env : CycleEnv) (self : Looper) (i : Q) :
  fl (interval self) = Finite i ->
  (i <= 0)%Q ->
  let o := send_announcement env self in
  ((i == 0)%Q -> valid_clock (now env) ->
   result o = inl ZeroDivisionError
   /\ trace o = []
   /\ state o = self
   /\ forall rest : list CycleEnv,
        run (env :: rest) self = mkRun [trace o] self (Some ZeroDivisionError))
  /\ ((i < 0)%Q ->
      (forall w : Q, In w (slept (trace o)) -> (w == 0)%Q)
      /\ (slept (trace o) = [] ->
          (exists e : exn, result o = inl e)
          /\ methods_issued (trace o) = []
          /\ state o = self)).
Proof.
  intros Hi Hle o. split.
  - intros Hz Hv.
    destruct (elapsed_valid _ Hv) as (el & He & _).
    assert (Hm : float_mod (Finite el) (fl (interval self))
                 = inl ZeroDivisionError).
    { rewrite Hi. unfold float_mod.
      destruct (Qeq_bool i 0) eqn:E; [reflexivity|].
      apply Qeq_bool_neq in E. contradiction. }
    assert (Hcore : result o = inl ZeroDivisionError /\ trace o = []
                    /\ state o = self).
    { subst o. clear Hi Hz Hle Hv. revert He Hm.
      py_exec env self; intros He Hm; try congruence;
        repeat split; congruence. }
    destruct Hcore as (Hres & Htr & Hst).
    repeat (split; [assumption|]).
    intros rest. rewrite run_cons. cbv zeta. fold o. rewrite Hres, Hst.
    reflexivity.
  - intros Hneg. split; [|apply cycle_no_sleep_raises].
    intros w Hw.
    pose proof (fl_ok (interval self)) as Hok. rewrite Hi in Hok.
    cbn [well_formed] in Hok.
    destruct (cycle_slept env self) as [Hs _]. fold o in Hs.
    destruct Hs as [Hs|(q & Hs & Hq & _ & _ & Hn)]; rewrite Hs in Hw;
      cbn [In] in Hw; [contradiction|].
    destruct Hw as [<-|[]].
    apply is_negative_false in Hn.
    unfold wait_of in Hq.
    destruct (elapsed (now env)) as [?|el]; [discriminate|].
    destruct (float_mod el (fl (interval self))) as [?|r] eqn:Hm;
      [discriminate|].
    injection Hq as Hq. rewrite Hi in Hm, Hq.
    destruct (wait_bounds_neg el i r q Hok Hneg Hm Hq) as [_ Hq0].
    apply Qle_antisym; assumption.
Qed.

(** An interval of -5 s is refused by [time.sleep]; one of -1e22 s is not:
    at 13:07:30 on the 1st the remainder rounds to the interval itself,
    the wait is 0, and the cycle sleeps 0 s and posts. *)
Lemma nonpositive_interval_never_waits_witness :
  let env := mid_interval live no_content in
  let env1 := mkEnv (clock 1 7 30 0) live no_content int64_nanoseconds in
  let self := __init__ ["A"] false "1234" "5678" seconds_minus_5 "client"
                "token" in
  let huge := __init__ ["A"] false "1234" "5678" seconds_minus_1e22 "client"
                "token" in
  result (send_announcement env self) = inl ValueError
  /\ methods_issued (trace (send_announcement env self)) = []
  /\ slept (trace (send_announcement env1 huge)) = [0%Q]
  /\ posted (trace (send_announcement env1 huge)) = [Some "A"]
  /\ (forall w : Q, In w (slept (trace (send_announcement env1 huge))) ->
        (w == 0)%Q).
Proof.
  cbv zeta.
  destruct (nonpositive_interval_never_waits (mid_interval live no_content)
              (__init__ ["A"] false "1234" "5678" seconds_minus_5 "client"
                 "token") (- (5 # 1))%Q eq_refl)
    as (_ & Hneg); [vm_compute; discriminate|].
  destruct (Hneg eq_refl) as (_ & Hraise).
  destruct (Hraise ltac:(vm_compute; reflexivity)) as (_ & Hm & _).
  split; [vm_compute; reflexivity|]. split; [exact Hm|].
  split; [vm_compute; reflexivity|]. split; [vm_compute; reflexivity|].
  destruct (nonpositive_interval_never_waits
              (mkEnv (clock 1 7 30 0) live no_content int64_nanoseconds)
              (__init__ ["A"] false "1234" "5678" seconds_minus_1e22
                 "client" "token") (- (10000000000000000000000 # 1))%Q
              eq_refl)
    as (_ & Hneg'); [vm_compute; discriminate|].
  exact (proj1 (Hneg' eq_refl)).
Defined.

(** A cursor outside the list, as with an empty list, is never noticed
    before the message is fetched: the cycle issues no post, and with the
    gate off, once past its sleep, it raises [IndexError], which ends the
    loop. *)
Theorem cursor_out_of_range_is_fatal (env : CycleEnv) (self : Looper) :
  ~ (- Z.of_nat (List.length (announcements self)) <= index self
     < Z.of_nat (List.length (announcements self))) ->
  let o := send_announcement env self in
  posts (trace o) = []
  /\ state o = self
  /\ (ignore_offline self = false -> wakes env self ->
      result o = inl IndexError
      /\ forall rest : list CycleEnv,
           run (env :: rest) self = mkRun [trace o] self (Some IndexError)).
Proof.
  intros Hout. cbv zeta.
  assert (Hsub : subscript_list (announcements self) (index self)
                 = inl IndexError).
  { destruct (subscript_list (announcements self) (index self)) as [e|m]
      eqn:Hs.
    - destruct (subscript_list_inl _ _ _ Hs) as [-> _]. reflexivity.
    - elim Hout. exact (subscript_list_inr_range _ _ _ Hs). }
  assert (Hcore :
    posts (trace (send_announcement env self)) = []
    /\ state (send_announcement env self) = self).
  { clear Hout. py_exec env self; split; reflexivity. }
  destruct Hcore as [Hp Hst]. split; [exact Hp|]. split; [exact Hst|].
  intros Hg Hw.
  assert (Hres : result (send_announcement env self) = inl IndexError).
  { clear Hout Hp Hst. awake Hw.
    py_exec env self; intros w Hs; try discriminate Hs; reflexivity. }
  split; [exact Hres|].
  intros rest. rewrite run_cons. cbv zeta. rewrite Hres, Hst. reflexivity.
Qed.

Lemma cursor_out_of_range_is_fatal_witness :
  let self := __init__ [] false "1234" "5678" seconds_300 "client" "token" in
  let env := mid_interval live no_content in
  posts (trace (send_announcement env self)) = []
  /\ forall rest : list CycleEnv,
       run (env :: rest) self
       = mkRun [trace (send_announcement env self)] self (Some IndexError).
Proof.
  cbv zeta.
  destruct (cursor_out_of_range_is_fatal (mid_interval live no_content)
              (__init__ [] false "1234" "5678" seconds_300 "client" "token"))
    as (Hp & _ & H).
  - vm_compute. intros [_ H]. discriminate H.
  - split; [exact Hp|]. apply H; [reflexivity | wakes_now].
Defined.

(** ** The gate, beyond the empty [data] list *)

(** With the gate on, a post is only ever issued after the status query
    was answered 200 with a JSON object whose ['data'] is truthy; the query
    comes first and the cycle issues nothing else. *)
Theorem gated_post_needs_confirmed_online (env : CycleEnv) (self : Looper) :
  ignore_offline self = true ->
  let o := send_announcement env self in
  posts (trace o) <> [] ->
  (exists (r : Response) (fields : list (string * value)) (v : value),
     get_reply env = Responds r
     /\ status_code r = 200
     /\ json r = Some (JObj fields)
     /\ assoc "data" fields = Some v
     /\ truthy v = true)
  /\ status_queries (trace o) = [(status_request self, get_reply env)]
  /\ methods_issued (trace o) = [GET; POST].
Proof.
  intros Hg. cbv zeta. unfold status_request, methods_issued.
  py_exec env self; intros Hp; try (elim Hp; reflexivity).
  all: split; [|split; reflexivity].
  all: do 3 eexists; split; [reflexivity|];
    split; [apply Z.eqb_eq; assumption|];
    split; [eassumption|]; split; eassumption.
Qed.

Lemma gated_post_needs_confirmed_online_witness :
  let env := mid_interval live read_timeout in
  let o := send_announcement env (abc true) in
  status_queries (trace o) = [(status_request (abc true), get_reply env)]
  /\ methods_issued (trace o) = [GET; POST].
Proof.
  cbv zeta.
  refine (proj2 (gated_post_needs_confirmed_online
                   (mid_interval live read_timeout) (abc true) eq_refl _)).
  vm_compute. discriminate.
Defined.

(** With the gate on, what decides is the truth value of ['data'], whatever
    its JSON type: a truthy value lets the one post of
    [announcements[index]] through, and any falsy one (an empty list,
    [null], [false], [0], an empty string, an empty object) makes the
    cycle, once past its sleep, an offline skip. *)
Theorem data_truthiness_decides (env : CycleEnv) (self : Looper)
  (r : Response) (fields : list (string * value)) (v : value) (m : string) :
  ignore_offline self = true ->
  wakes env self ->
  subscript_list (announcements self) (index self) = inr m ->
  get_reply env = Responds r ->
  status_code r = 200 ->
  json r = Some (JObj fields) ->
  assoc "data" fields = Some v ->
  let o := send_announcement env self in
  posts (trace o)
  = (if truthy v then [(announce_request self m, post_reply env)] else [])
  /\ (truthy v = false ->
      state o = self /\ logged InfoOffline (trace o) /\ result o = inr tt).
Proof.
  intros Hg Hw Hm Hr Hs Hj Hd. cbv zeta.
  unfold announce_request, logged. apply Z.eqb_eq in Hs. awake Hw.
  destruct (truthy v) eqn:Hv.
  - py_exec env self; intros w Hsl; try discriminate Hsl;
      (split; [reflexivity | discriminate]).
  - py_exec env self; intros w Hsl; try discriminate Hsl;
      (split; [reflexivity | intros _; split; [reflexivity|];
               split; [in_list | reflexivity]]).
Qed.

(** [data: null] with status 200 is an offline skip. *)
Lemma data_truthiness_decides_witness :
  let r := mkResponse 200 "{data: null}" (Some (JObj [("data", JNull)])) in
  let env := mid_interval (Responds r) no_content in
  let o := send_announcement env (abc true) in
  posts (trace o) = []
  /\ state o = abc true /\ logged InfoOffline (trace o)
  /\ result o = inr tt.
Proof.
  cbv zeta.
  destruct (data_truthiness_decides
              (mid_interval
                 (Responds (mkResponse 200 "{data: null}"
                              (Some (JObj [("data", JNull)])))) no_content)
              (abc true)
              (mkResponse 200 "{data: null}" (Some (JObj [("data", JNull)])))
              [("data", JNull)] JNull "A"
              eq_refl ltac:(wakes_now) eq_refl eq_refl eq_refl eq_refl
              eq_refl)
    as [Hp Hskip].
  split; [exact Hp | exact (Hskip eq_refl)].
Defined.

(** Once the status check has confirmed the channel online, the gated
    cycle goes on exactly as the ungated one: the same sleep, the same
    post with the same answer, the same exception if any, and the same
    move of the cursor. *)
Theorem confirmed_online_cycle_is_ungated_cycle
  (env : CycleEnv) (self : Looper)
  (r : Response) (fields : list (string * value)) (v : value) :
  ignore_offline self = true ->
  get_reply env = Responds r ->
  status_code r = 200 ->
  json r = Some (JObj fields) ->
  assoc "data" fields = Some v ->
  truthy v = true ->
  let o := send_announcement env self in
  let o' := send_announcement env (ungated self) in
  slept (trace o) = slept (trace o')
  /\ posts (trace o) = posts (trace o')
  /\ result o = result o'
  /\ state o' = ungated (state o).
Proof.
  intros Hg Hr Hs Hj Hd Hv. cbv zeta. apply Z.eqb_eq in Hs.
  destruct env as [clk greply preply toolong].
  destruct self as [bid gate anns mid ival idx hdrs].
  unfold ungated.
  cbn [now get_reply post_reply sleep_too_long broadcaster_id ignore_offline
       announcements moderator_id interval index headers] in *.
  subst.
  py_run; py_run; repeat split.
Qed.

Lemma confirmed_online_cycle_is_ungated_cycle_witness :
  let env := mid_interval live no_content in
  let o := send_announcement env (abc true) in
  let o' := send_announcement env (abc false) in
  slept (trace o) = slept (trace o')
  /\ posts (trace o) = posts (trace o')
  /\ result o = result o'
  /\ state o' = ungated (state o).
Proof.
  cbv zeta.
  apply (confirmed_online_cycle_is_ungated_cycle
           (mid_interval live no_content) (abc true)
           (mkResponse 200 "{data: [{id: 1}]}"
              (Some (JObj [("data", JArr [JObj [("id", JStr "1")]])])))
           [("data", JArr [JObj [("id", JStr "1")]])]
           (JArr [JObj [("id", JStr "1")]]));
    reflexivity.
Defined.

(** ** What the log says *)

Ltac in_cases H :=
  cbn [In] in H;
  repeat (destruct H as [H|H]; [try discriminate|]);
  try contradiction.

Ltac status_facts :=
  cbn [expected_status req_method] in *;
  repeat match goal with
  | H : (_ =? _) = true |- _ => apply Z.eqb_eq in H
  | H : (_ =? _) = false |- _ => apply Z.eqb_neq in H
  end.

(** The error records of a cycle tell exactly what went wrong with its
    requests: the body of an answer is logged as an error if and only if a
    request of the cycle was answered with that body and a status other
    than the expected one (200 for the status query, 204 for the post), and
    "Request timed out." if and only if a request of the cycle raised a
    timeout. *)
Theorem error_log_is_faithful (env : CycleEnv) (self : Looper) :
  let o := send_announcement env self in
  (forall c : string,
     logged (ErrorContent c) (trace o)
     <-> exists rq r,
           In (Http rq (Responds r)) (trace o)
           /\ content r = c
           /\ status_code r <> expected_status (req_method rq))
  /\ (logged ErrorTimedOut (trace o)
      <-> exists rq e,
            In (Http rq (Raises e)) (trace o) /\ is_timeout e = true).
Proof.
  cbv zeta. unfold logged.
  py_exec env self; (split; [intros c0|]); split.
  all: try (intros HIn; in_cases HIn; fail).
  all: try (intros (rq & x & HIn & _); in_cases HIn; fail).
  all: try solve
    [ intros (rq & x & HIn & <- & Hne); in_cases HIn;
      injection HIn as <- <-; status_facts;
      first [contradiction | in_list] ].
  all: try solve
    [ intros (rq & x & HIn & Ht); in_cases HIn;
      injection HIn as <- <-; first [discriminate | in_list] ].
  all: try solve
    [ intros HIn; in_cases HIn; injection HIn as <-;
      match goal with
      | |- context [_ = content ?r0] =>
          match goal with
          | |- context [Http ?rq (Responds r0)] => exists rq, r0
          end
      end;
      split; [in_list | split; [reflexivity | status_facts; assumption]] ].
  all: try solve
    [ intros _; do 2 eexists; split; [in_list | reflexivity] ].
Qed.

(** The info records are as reliable: "Sent." is logged exactly when the
    post was answered 204; "Channel is offline." only with the gate on, in
    a cycle that posted nothing, changed nothing and ended normally; and
    the message announced in "Sending announcement ..." is
    [announcements[index]] for the configured broadcaster. *)
Theorem info_log_is_faithful (env : CycleEnv) (self : Looper) :
  let o := send_announcement env self in
  (logged InfoSent (trace o) <-> sent_ok (trace o) = true)
  /\ (logged InfoOffline (trace o) ->
      ignore_offline self = true
      /\ posts (trace o) = [] /\ state o = self /\ result o = inr tt)
  /\ (forall b m : string,
        logged (InfoSending b m) (trace o) ->
        b = broadcaster_id self
        /\ subscript_list (announcements self) (index self) = inr m).
Proof.
  cbv zeta. unfold logged.
  py_exec env self; (split; [split|split; [|intros b0 m0]]).
  all: try solve [intros HIn; in_cases HIn].
  all: try solve [intros HIn; discriminate HIn].
  all: try solve [intros _; in_list].
  all: try solve [intros _; reflexivity].
  all: try solve [intros _; repeat split].
  all: try solve
    [ intros HIn; in_cases HIn; injection HIn as <- <-; split; reflexivity ].
Qed.

Lemma info_log_is_faithful_witness :
  let o := send_announcement (mid_interval not_live no_content) (abc true) in
  ignore_offline (abc true) = true
  /\ posts (trace o) = [] /\ state o = abc true /\ result o = inr tt.
Proof.
  cbv zeta.
  destruct (info_log_is_faithful (mid_interval not_live no_content)
              (abc true)) as (_ & Hoff & _).
  apply Hoff. vm_compute. tauto.
Defined.

(** ** The requests of a cycle *)

(** A cycle issues at most two requests and never two of a kind: with the
    gate off nothing but one post, with the gate on one status query that
    may be followed by one post, never a post alone.  No request is issued
    before the cycle has slept: a cycle with a request starts with the
    wait record, the one sleep and "Starting...". *)
Theorem requests_of_a_cycle (env : CycleEnv) (self : Looper) :
  let o := send_announcement env self in
  (if ignore_offline self
   then methods_issued (trace o) = []
        \/ methods_issued (trace o) = [GET]
        \/ methods_issued (trace o) = [GET; POST]
   else methods_issued (trace o) = []
        \/ methods_issued (trace o) = [POST])
  /\ (methods_issued (trace o) <> [] ->
      exists (w : Q) (rest : list Event),
        trace o
        = Log (InfoWaiting (Finite w)) :: Sleep w :: Log InfoStarting :: rest
        /\ slept rest = []).
Proof.
  cbv zeta. unfold methods_issued.
  py_exec env self; split.
  all: try match goal with
           | |- if ?g then _ else _ => destruct g
           end.
  all: try solve [left; reflexivity].
  all: try solve [right; reflexivity].
  all: try solve [right; left; reflexivity].
  all: try solve [right; right; reflexivity].
  all: try solve [intros Hne; elim Hne; reflexivity].
  all: intros _; do 2 eexists; split; reflexivity.
Qed.

Lemma requests_of_a_cycle_witness :
  let o := send_announcement (mid_interval live server_error) (abc true) in
  methods_issued (trace o) = [GET; POST]
  /\ exists (w : Q) (rest : list Event),
       trace o
       = Log (InfoWaiting (Finite w)) :: Sleep w :: Log InfoStarting :: rest
       /\ slept rest = [].
Proof.
  cbv zeta. split; [vm_compute; reflexivity|].
  refine (proj2 (requests_of_a_cycle (mid_interval live server_error)
                   (abc true)) _).
  vm_compute. discriminate.
Defined.

(** ** The loop as a whole *)

Lemma cycle_keeps_config (env : CycleEnv) (self : Looper) :
  state (send_announcement env self)
  = set_index self (index (state (send_announcement env self))).
Proof.
  pose proof (cycle_state env self) as Hs. cbv zeta in Hs.
  rewrite Hs. destruct (sent_ok _); destruct self; reflexivity.
Qed.

Lemma run_keeps_config (envs : list CycleEnv) :
  forall self,
    final (run envs self) = set_index self (index (final (run envs self))).
Proof.
  induction envs as [|env rest IH]; intros self.
  - destruct self; reflexivity.
  - rewrite run_cons. cbv zeta.
    pose proof (cycle_keeps_config env self) as Hc.
    destruct (result (send_announcement env self)); cbn [final];
      [exact Hc|].
    rewrite (IH (state (send_announcement env self))).
    rewrite Hc. reflexivity.
Qed.

(** However long the loop runs and however it ends, it changes nothing of
    the object but the cursor: the identifiers, the gate, the interval, the
    message list and the credentials stay those given at construction. *)
Theorem loop_changes_only_the_cursor
  (anns : list string) (gate : bool) (bid mid : string) (ival : float)
  (cid tok : string) (envs : list CycleEnv) :
  let r := run envs (__init__ anns gate bid mid ival cid tok) in
  broadcaster_id (final r) = bid
  /\ ignore_offline (final r) = gate
  /\ announcements (final r) = anns
  /\ moderator_id (final r) = mid
  /\ interval (final r) = ival
  /\ headers (final r)
     = [("Authorization", ("Bearer " ++ tok)%string); ("Client-Id", cid)].
Proof.
  cbv zeta.
  rewrite (run_keeps_config envs (__init__ anns gate bid mid ival cid tok)).
  repeat split.
Qed.

Lemma subscript_list_In {A : Type} (l : list A) (i : Z) (x : A) :
  subscript_list l i = inr x -> In x l.
Proof.
  unfold subscript_list.
  destruct ((0 <=? _) && (_ <? _)); [|discriminate].
  destruct (nth_error l _) as [y|] eqn:Hn; [|discriminate].
  intros H. injection H as <-. eapply nth_error_In. exact Hn.
Qed.

(** The requests of one cycle are the two the class builds. *)
Lemma cycle_requests_shape (env : CycleEnv) (self : Looper)
  (rq : Request) (reply : Outcome) :
  In (Http rq reply) (trace (send_announcement env self)) ->
  rq = status_request self /\ reply = get_reply env
  \/ exists m,
       subscript_list (announcements self) (index self) = inr m
       /\ rq = announce_request self m /\ reply = post_reply env.
Proof.
  unfold status_request, announce_request.
  py_exec env self; intros HIn; in_cases HIn; injection HIn as <- <-;
    solve [ left; split; reflexivity
          | right; eexists; split; [reflexivity | split; reflexivity] ].
Qed.

Lemma run_requests_shape (envs : list CycleEnv) :
  forall self,
    Forall (fun tr =>
              forall rq reply,
                In (Http rq reply) tr ->
                rq = status_request self
                \/ exists m,
                     In m (announcements self)
                     /\ rq = announce_request self m)
           (cycles (run envs self)).
Proof.
  induction envs as [|env rest IH]; intros self; [constructor|].
  rewrite run_cons. cbv zeta.
  assert (Hhere : forall rq reply,
            In (Http rq reply) (trace (send_announcement env self)) ->
            rq = status_request self
            \/ exists m, In m (announcements self)
                         /\ rq = announce_request self m).
  { intros rq reply HIn.
    destruct (cycle_requests_shape env self rq reply HIn)
      as [[-> _]|(m & Hm & -> & _)]; [left; reflexivity|].
    right. exists m. split; [|reflexivity].
    eapply subscript_list_In. exact Hm. }
  destruct (result (send_announcement env self)); cbn [cycles];
    constructor; auto.
  pose proof (cycle_keeps_config env self) as Hc.
  remember (state (send_announcement env self)) as self' eqn:Hself'.
  clear Hself'.
  assert (E1 : status_request self' = status_request self)
    by (rewrite Hc; reflexivity).
  assert (E2 : announce_request self' = announce_request self)
    by (rewrite Hc; reflexivity).
  assert (E3 : announcements self' = announcements self)
    by (rewrite Hc; reflexivity).
  rewrite <- E1, <- E2, <- E3. apply IH.
Qed.

(** Every request the loop ever issues is one of two.  Either the status
    query: a GET of [.../helix/streams] for the configured broadcaster.  Or
    an announcement: a POST to [.../helix/chat/announcements] for the
    configured broadcaster and moderator, whose message is one of the
    configured announcements.  Both carry the bearer token and the client
    id given at construction, and a timeout of 60 seconds. *)
Theorem loop_requests_are_well_formed
  (anns : list string) (gate : bool) (bid mid : string) (ival : float)
  (cid tok : string) (envs : list CycleEnv) :
  Forall (fun tr =>
            forall rq reply,
              In (Http rq reply) tr ->
              req_headers rq
              = [("Authorization", ("Bearer " ++ tok)%string);
                 ("Client-Id", cid)]
              /\ req_timeout rq = 60
              /\ (req_method rq = GET
                  /\ req_url rq = "https://api.twitch.tv/helix/streams"
                  /\ req_params rq = [("user_id", bid)]
                  /\ req_data rq = []
                  \/ req_method rq = POST
                     /\ req_url rq
                        = "https://api.twitch.tv/helix/chat/announcements"
                     /\ req_params rq
                        = [("broadcaster_id", bid); ("moderator_id", mid)]
                     /\ exists m, In m anns
                                  /\ req_data rq = [("message", m)]))
         (cycles (run envs (__init__ anns gate bid mid ival cid tok))).
Proof.
  eapply Forall_impl;
    [|apply (run_requests_shape envs
               (__init__ anns gate bid mid ival cid tok))].
  intros tr H rq reply HIn.
  destruct (H rq reply HIn) as [->|(m & Hm & ->)].
  - split; [reflexivity|]. split; [reflexivity|].
    left. repeat split.
  - split; [reflexivity|]. split; [reflexivity|].
    right. repeat split. exists m. split; [exact Hm | reflexivity].
Qed.

Lemma sent_ok_posted (tr : list Event) :
  sent_ok tr = true -> posted tr <> [].
Proof.
  unfold sent_ok, posted. destruct (posts tr); [discriminate|].
  intros _. discriminate.
Qed.

Lemma run_sent_messages (envs : list CycleEnv) :
  forall self,
    valid_index self ->
    let r := run envs self in
    let len := Z.of_nat (List.length (announcements self)) in
    sent_messages (cycles r)
    = map (fun k => nth_error (announcements self)
                      (Z.to_nat ((index self + Z.of_nat k) mod len)))
          (seq 0 (successes (cycles r))).
Proof.
  induction envs as [|env rest IH]; intros self Hv; cbv zeta; [reflexivity|].
  rewrite run_cons. cbv zeta.
  pose proof (cycle_state env self) as Hs.
  pose proof (cycle_sent_result env self) as Hr.
  pose proof (cycle_valid_index env self Hv) as Hv'.
  pose proof (cycle_announcements env self) as Ha.
  pose proof (sent_ok_posted (trace (send_announcement env self))) as Hne.
  cbv zeta in Hs, Hr.
  specialize (IH _ Hv'). cbv zeta in IH. rewrite Ha in IH.
  unfold sent_messages, successes in *.
  destruct (result (send_announcement env self)) as [e|[]] eqn:Hres;
    cbn [cycles flat_map filter].
  - destruct (sent_ok (trace (send_announcement env self)));
      [specialize (Hr eq_refl); discriminate | reflexivity].
  - destruct (sent_ok (trace (send_announcement env self))).
    + rewrite IH, Hs. cbn [List.length seq map set_index index].
      destruct (cycle_posted env self) as [Hp|(m & Hm & Hp)];
        cbv zeta in Hp; [elim (Hne eq_refl); exact Hp|].
      rewrite Hp. cbn [app].
      destruct (subscript_list_valid _ _ Hv) as (x & Hx & Hnth).
      rewrite Hx in Hm. injection Hm as ->.
      change (Z.of_nat 0) with 0. rewrite Z.add_0_r.
      rewrite (Z.mod_small (index self)) by exact Hv. rewrite Hnth.
      f_equal. rewrite <- seq_shift, map_map.
      apply map_ext. intros k.
      rewrite Z.add_mod_idemp_l by (unfold valid_index in Hv; lia).
      replace (index self + Z.of_nat (S k))
        with (index self + 1 + Z.of_nat k) by lia.
      reflexivity.
    + rewrite IH, Hs. reflexivity.
Qed.

(** The accepted announcements go out in the order of the list, round and
    round: whatever failures, skips and retries come in between, the
    [k]-th accepted post of the loop (counting from 0) carried
    [announcements[k mod L]]. *)
Theorem accepted_posts_follow_the_list
  (anns : list string) (gate : bool) (bid mid : string) (ival : float)
  (cid tok : string) (envs : list CycleEnv) :
  anns <> [] ->
  let r := run envs (__init__ anns gate bid mid ival cid tok) in
  sent_messages (cycles r)
  = map (fun k => nth_error anns (k mod List.length anns)%nat)
        (seq 0 (successes (cycles r))).
Proof.
  intros Hne. cbv zeta.
  assert (Hv : valid_index (__init__ anns gate bid mid ival cid tok)).
  { unfold valid_index. cbn. destruct anns; [congruence|]. cbn. lia. }
  rewrite (run_sent_messages envs _ Hv). cbn [announcements index __init__].
  apply map_ext. intros k. f_equal.
  rewrite Z.add_0_l, <- Nat2Z.inj_mod. apply Nat2Z.id.
Qed.

(** Seven cycles with a timeout, an offline skip and a 500 in between:
    the accepted messages are "A", "B", "C", "A". *)
Lemma accepted_posts_follow_the_list_witness :
  let envs := [mid_interval live no_content;
               mid_interval live read_timeout;
               mid_interval live no_content;
               mid_interval not_live no_content;
               mid_interval live no_content;
               mid_interval live server_error;
               mid_interval live no_content] in
  sent_messages (cycles (run envs (abc true)))
  = [Some "A"; Some "B"; Some "C"; Some "A"].
Proof.
  cbv zeta.
  rewrite (accepted_posts_follow_the_list ["A"; "B"; "C"] true "1234" "5678"
             seconds_300 "client" "token" _ ltac:(discriminate)).
  vm_compute. reflexivity.
Defined.

Lemma cycle_survives (env : CycleEnv) (self : Looper) :
  wakes env self ->
  valid_index self ->
  survivable (get_reply env) ->
  status_body_ok (get_reply env) ->
  survivable (post_reply env) ->
  result (send_announcement env self) = inr tt.
Proof.
  intros Hw Hv Hget Hbody Hpost.
  destruct (subscript_list_valid _ _ Hv) as (m & Hm & _). clear Hv.
  unfold survivable, status_body_ok, has_data_key in *. awake Hw.
  py_exec env self; intros w Hsl; try discriminate Hsl; try reflexivity;
    cbn [is_timeout] in *; try discriminate;
    status_facts;
    match goal with
    | Hb : status_code _ = 200 -> _, Hs : status_code _ = 200 |- _ =>
        specialize (Hb Hs); cbn in Hb;
        repeat match goal with
        | H : assoc _ _ = _ |- _ => rewrite H in Hb
        end;
        discriminate Hb
    end.
Qed.

(** What the loop survives.  With a cursor in range, the loop goes through
    every cycle without raising as long as each cycle gets past its sleep,
    each request either is answered, with whatever status, or times out,
    and every status answer 200 has a body with ['data']: wrong statuses,
    timeouts and offline channels never end it. *)
Theorem loop_survives_statuses_and_timeouts
  (envs : list CycleEnv) (self : Looper) :
  valid_index self ->
  Forall (fun env => wakes env self
                     /\ survivable (get_reply env)
                     /\ status_body_ok (get_reply env)
                     /\ survivable (post_reply env)) envs ->
  raised (run envs self) = None
  /\ List.length (cycles (run envs self)) = List.length envs.
Proof.
  revert self.
  induction envs as [|env rest IH]; intros self Hv Hall;
    [split; reflexivity|].
  inversion Hall as [|? ? (Hw & Hget & Hbody & Hpost) Hrest]; subst.
  rewrite run_cons. cbv zeta.
  rewrite (cycle_survives env self Hw Hv Hget Hbody Hpost).
  cbn [raised cycles List.length].
  destruct (IH (state (send_announcement env self))) as [Hnone Hlen];
    [apply cycle_valid_index, Hv | |].
  { eapply Forall_impl; [|exact Hrest].
    intros env' (Hw' & H'). split; [apply wakes_state; exact Hw'|exact H']. }
  split; [exact Hnone | rewrite Hlen; reflexivity].
Qed.

Lemma loop_survives_statuses_and_timeouts_witness :
  let envs := [mid_interval read_timeout no_content;
               mid_interval live read_timeout;
               mid_interval not_live no_content;
               mid_interval live server_error] in
  raised (run envs (abc true)) = None
  /\ List.length (cycles (run envs (abc true))) = 4%nat.
Proof.
  cbv zeta.
  apply (loop_survives_statuses_and_timeouts
           [mid_interval read_timeout no_content;
            mid_interval live read_timeout;
            mid_interval not_live no_content;
            mid_interval live server_error] (abc true)).
  - split; vm_compute; [discriminate | reflexivity].
  - repeat constructor; try wakes_now; cbn; intros; reflexivity.
Defined.
